(** * DevTools core: ByteUtil (Utils), UUID and HexView

    Shallow embedding of the binary-data core of the DevTools site:
    - [Utils.bytesToHex], [Utils.hexToBytes], [Utils.stringToBytes]
      (src/unnamed/part_002);
    - [UUID.v3], [UUID.v4], [UUID.v5], [UUID.parse], [UUID.format]
      (src/unnamed/part_002);
    - the [HexView] component (src/js/hex-view.js).

    Conventions of the model:
    - a [Uint8Array] is a [list byte]; a store [a[i] = x] converts [x] with
      ToUint8 ([toUint8]) and is ignored when [i] is out of range, as the
      typed-array [[Set]] does ([setIdx]);
    - a JavaScript string is a Stdlib [string]; its characters are the
      code units 0..255 (ASCII and Latin-1), which is enough for hex text,
      UUID text and the names used below;
    - a JavaScript number that the code handles is an integer and is
      modelled as [Z] (or [N] / [nat] where it is an index). *)

From Stdlib Require Import ZArith NArith List String Ascii Bool Lia.
From Stdlib Require Import Strings.Byte.
Import ListNotations.
Open Scope Z_scope.

(* ------------------------------------------------------------------ *)
(** ** Typed-array primitives *)

(** ToUint8 of an integer number: wrap modulo 2^8. *)
Definition byte_of_Z (z : Z) : byte :=
  match Byte.of_N (Z.to_N (z mod 256)) with
  | Some b => b
  | None => x00
  end.

Definition byte_val (b : byte) : Z := Z.of_N (Byte.to_N b).

(** ToUint8 of the result of [parseInt]: [None] is [NaN], stored as 0. *)
Definition toUint8 (r : option Z) : byte :=
  match r with
  | None => x00
  | Some z => byte_of_Z z
  end.

(** [a[i] = x] on a [Uint8Array]: out-of-range writes are ignored. *)
Fixpoint setIdx (i : nat) (x : byte) (a : list byte) : list byte :=
  match a, i with
  | [], _ => []
  | _ :: t, O => x :: t
  | y :: t, S i' => y :: setIdx i' x t
  end.

(** [a[i]] on a [Uint8Array] of length > i. *)
Definition getIdx (i : nat) (a : list byte) : Z := byte_val (nth i a x00).

(* ------------------------------------------------------------------ *)
(** ** Number.prototype.toString(16) and String.prototype.padStart *)

Definition hexDigit (n : N) : ascii :=
  match n with
  | 0%N => "0" | 1%N => "1" | 2%N => "2" | 3%N => "3"
  | 4%N => "4" | 5%N => "5" | 6%N => "6" | 7%N => "7"
  | 8%N => "8" | 9%N => "9" | 10%N => "a" | 11%N => "b"
  | 12%N => "c" | 13%N => "d" | 14%N => "e" | _ => "f"
  end%char.

Fixpoint toString16_aux (fuel : nat) (n : N) (acc : string) : string :=
  match fuel with
  | O => acc
  | S f =>
      let acc' := String (hexDigit (n mod 16)) acc in
      if (n <? 16)%N then acc' else toString16_aux f (n / 16)%N acc'
  end.

(** [n.toString(16)] for a non-negative integer [n] (lowercase digits). *)
Definition toString16 (n : N) : string :=
  toString16_aux (S (N.size_nat n)) n EmptyString.

(** [s.padStart(k, c)] with a one-character fill string [c]. *)
Fixpoint replicate_char (k : nat) (c : ascii) : string :=
  match k with
  | O => EmptyString
  | S k' => String c (replicate_char k' c)
  end.

Definition padStart (s : string) (k : nat) (c : ascii) : string :=
  if (k <=? String.length s)%nat then s
  else append (replicate_char (k - String.length s) c) s.

(* ------------------------------------------------------------------ *)
(** ** Utils.bytesToHex *)

(** [b => b.toString(16).padStart(2, '0')] *)
Definition hex2 (b : byte) : string :=
  padStart (toString16 (Byte.to_N b)) 2 "0".

(** [Array.from(bytes).map(hex2).join('')] *)
Fixpoint bytesToHex (bytes : list byte) : string :=
  match bytes with
  | [] => EmptyString
  | b :: t => append (hex2 b) (bytesToHex t)
  end.

(* ------------------------------------------------------------------ *)
(** ** parseInt(s, 16) *)

(** StrWhiteSpaceChar among the code units 0..255:
    TAB, LF, VT, FF, CR, SPACE and NO-BREAK SPACE. *)
Definition isWhiteSpace (c : ascii) : bool :=
  match N_of_ascii c with
  | 9%N | 10%N | 11%N | 12%N | 13%N | 32%N | 160%N => true
  | _ => false
  end.

Fixpoint trimStart (s : string) : string :=
  match s with
  | String c t => if isWhiteSpace c then trimStart t else s
  | EmptyString => EmptyString
  end.

(** Value of a radix-16 digit, if [c] is one. *)
Definition hexValue (c : ascii) : option N :=
  let n := N_of_ascii c in
  if ((48 <=? n) && (n <=? 57))%N then Some (n - 48)%N
  else if ((97 <=? n) && (n <=? 102))%N then Some (n - 87)%N
  else if ((65 <=? n) && (n <=? 70))%N then Some (n - 55)%N
  else None.

(** Longest prefix of radix-16 digits, read as a number; [None] when the
    prefix is empty. *)
Fixpoint digitsValue (s : string) (acc : option N) : option N :=
  match s with
  | EmptyString => acc
  | String c t =>
      match hexValue c with
      | Some d =>
          let a := match acc with None => 0%N | Some a => a end in
          digitsValue t (Some (16 * a + d)%N)
      | None => acc
      end
  end.

(** Steps 4-8 of [parseInt] with radix 16: the sign, the optional
    ["0x"] / ["0X"] prefix, then the digits. [None] is [NaN]. *)
Definition stripHexPrefix (s : string) : string :=
  match s with
  | String "0"%char (String x t) =>
      if (Ascii.eqb x "x" || Ascii.eqb x "X")%bool then t else s
  | _ => s
  end.

Definition parseInt16 (input : string) : option Z :=
  let s := trimStart input in
  let '(sign, s) :=
    match s with
    | String "-"%char t => (-1, t)
    | String "+"%char t => (1, t)
    | _ => (1, s)
    end in
  match digitsValue (stripHexPrefix s) None with
  | None => None
  | Some v => Some (sign * Z.of_N v)
  end.

(* ------------------------------------------------------------------ *)
(** ** Utils.hexToBytes *)

(** The loop [for (let i = 0; i < hex.length; i += 2)
    bytes[i / 2] = parseInt(hex.substr(i, 2), 16);]. The loop runs at most
    [hex.length] times, which bounds [fuel]. *)
Fixpoint hexToBytes_loop (hex : string) (fuel i : nat) (bytes : list byte)
  : list byte :=
  match fuel with
  | O => bytes
  | S f =>
      if (i <? String.length hex)%nat then
        hexToBytes_loop hex f (i + 2)
          (setIdx (i / 2) (toUint8 (parseInt16 (substring i 2 hex))) bytes)
      else bytes
  end.

(** [new Uint8Array(hex.length / 2)] has ToIndex(length / 2) elements,
    i.e. [floor (length / 2)] zero bytes, then the loop fills them. *)
Definition hexToBytes (hex : string) : list byte :=
  hexToBytes_loop hex (String.length hex) 0
    (repeat x00 (String.length hex / 2)).

(** The pairwise reading of [hexToBytes]: each adjacent pair of
    characters becomes one byte, a trailing odd character is dropped. *)
Fixpoint hexPairs (s : string) : list byte :=
  match s with
  | String a (String c t) =>
      toUint8 (parseInt16 (String a (String c EmptyString))) :: hexPairs t
  | _ => []
  end.

(* ------------------------------------------------------------------ *)
(** ** Utils.stringToBytes: [new TextEncoder().encode(str)] *)

(** UTF-8 encoding of one code unit in 0..255. *)
Definition utf8_of_char (c : ascii) : list byte :=
  let n := Z.of_N (N_of_ascii c) in
  if n <? 128 then [byte_of_Z n]
  else [byte_of_Z (Z.lor 192 (Z.shiftr n 6)); byte_of_Z (Z.lor 128 (Z.land n 63))].

Fixpoint stringToBytes (s : string) : list byte :=
  match s with
  | EmptyString => []
  | String c t => utf8_of_char c ++ stringToBytes t
  end.

(* ------------------------------------------------------------------ *)
(** ** SHA-1 (FIPS 180-4), the digest behind
    [crypto.subtle.digest('SHA-1', data)] used by [Hash.sha1] *)

Module SHA1.

Definition w32 (z : Z) : Z := Z.land z (2 ^ 32 - 1).
Definition rotl (x : Z) (n : Z) : Z :=
  w32 (Z.lor (Z.shiftl x n) (Z.shiftr x (32 - n))).

Definition be_word (a b c d : byte) : Z :=
  Z.lor (Z.shiftl (byte_val a) 24)
    (Z.lor (Z.shiftl (byte_val b) 16)
       (Z.lor (Z.shiftl (byte_val c) 8) (byte_val d))).

Definition word_bytes (w : Z) : list byte :=
  [byte_of_Z (Z.shiftr w 24); byte_of_Z (Z.shiftr w 16);
   byte_of_Z (Z.shiftr w 8); byte_of_Z w].

Fixpoint words_of_bytes (l : list byte) : list Z :=
  match l with
  | a :: b :: c :: d :: t => be_word a b c d :: words_of_bytes t
  | _ => []
  end.

(** Padding: [0x80], zeros, then the 64-bit big-endian bit length. *)
Definition pad (msg : list byte) : list byte :=
  let len := List.length msg in
  let zeros := ((119 - len mod 64) mod 64)%nat in
  msg ++ [x80] ++ repeat x00 zeros
      ++ flat_map word_bytes [Z.shiftr (Z.of_nat len * 8) 32; w32 (Z.of_nat len * 8)].

(** Message schedule W_0 .. W_79. *)
Fixpoint extend (k : nat) (w : list Z) : list Z :=
  match k with
  | O => w
  | S k' =>
      let t := List.length w in
      let x := Z.lxor (Z.lxor (nth (t - 3) w 0) (nth (t - 8) w 0))
                      (Z.lxor (nth (t - 14) w 0) (nth (t - 16) w 0)) in
      extend k' (w ++ [rotl x 1])
  end.

Definition f_k (t : nat) (b c d : Z) : Z * Z :=
  if (t <? 20)%nat then (Z.lor (Z.land b c) (Z.land (Z.lxor b (2 ^ 32 - 1)) d), 1518500249)
  else if (t <? 40)%nat then (Z.lxor (Z.lxor b c) d, 1859775393)
  else if (t <? 60)%nat then
    (Z.lor (Z.lor (Z.land b c) (Z.land b d)) (Z.land c d), 2400959708)
  else (Z.lxor (Z.lxor b c) d, 3395469782).

Definition round (s : Z * Z * Z * Z * Z) (tw : nat * Z) : Z * Z * Z * Z * Z :=
  let '(a, b, c, d, e) := s in
  let '(t, w) := tw in
  let '(f, k) := f_k t b c d in
  let temp := w32 (rotl a 5 + f + e + k + w) in
  (temp, a, rotl b 30, c, d).

Definition compress (h : Z * Z * Z * Z * Z) (block : list byte) : Z * Z * Z * Z * Z :=
  let w := extend 64 (words_of_bytes block) in
  let '(a, b, c, d, e) := fold_left round (combine (seq 0 80) w) h in
  let '(h0, h1, h2, h3, h4) := h in
  (w32 (h0 + a), w32 (h1 + b), w32 (h2 + c), w32 (h3 + d), w32 (h4 + e)).

Fixpoint blocks (fuel : nat) (h : Z * Z * Z * Z * Z) (l : list byte)
  : Z * Z * Z * Z * Z :=
  match fuel, l with
  | O, _ | _, [] => h
  | S f, _ => blocks f (compress h (firstn 64 l)) (skipn 64 l)
  end.

Definition digest (msg : list byte) : list byte :=
  let p := pad msg in
  let '(h0, h1, h2, h3, h4) :=
    blocks (List.length p) (1732584193, 4023233417, 2562383102, 271733878, 3285377520) p in
  flat_map word_bytes [h0; h1; h2; h3; h4].

End SHA1.

(** [Hash.sha1(data)] on a [Uint8Array]: [Hash.calculate('SHA-1', data)]. *)
Definition Hash_sha1 (data : list byte) : list byte := SHA1.digest data.

(* ------------------------------------------------------------------ *)
(** ** UUID *)

(** The global environment the UUID functions run in: the state of
    [crypto.getRandomValues] (a position in a stream of random bytes) and
    the optional [CryptoJS] library, of which [CryptoJS.MD5] is used. *)
Record wordArray := mkWordArray { words : list Z; sigBytes : nat }.

Record env := mkEnv {
  rng_pos : nat;
  rng : nat -> byte;
  cryptoJS : option (list byte -> wordArray)
}.

(** [Utils.getRandomBytes(length)]: a fresh array filled by
    [crypto.getRandomValues]. *)
Definition getRandomBytes (length : nat) (e : env) : list byte * env :=
  (map (fun k => rng e (rng_pos e + k)) (seq 0 length),
   mkEnv (rng_pos e + length) (rng e) (cryptoJS e)).

(** A failed (thrown or rejected) call. *)
Inductive js_error := Error (msg : string).
Inductive result (A : Type) := Ok (a : A) | Throw (err : js_error).
Arguments Ok {A} a.
Arguments Throw {A} err.

(** [s.replace(/-/g, '')] *)
Fixpoint removeDashes (s : string) : string :=
  match s with
  | EmptyString => EmptyString
  | String c t => if Ascii.eqb c "-" then removeDashes t else String c (removeDashes t)
  end.

(** [UUID.parse(uuid)] *)
Definition UUID_parse (uuid : string) : list byte := hexToBytes (removeDashes uuid).

(** [str.slice(a, b)] for [0 <= a <= b]. *)
Definition str_slice (s : string) (a b : nat) : string := substring a (b - a) s.

(** [UUID.format(bytes)] *)
Definition UUID_format (bytes : list byte) : string :=
  let hex := bytesToHex bytes in
  append (str_slice hex 0 8) (String "-"
  (append (str_slice hex 8 12) (String "-"
  (append (str_slice hex 12 16) (String "-"
  (append (str_slice hex 16 20) (String "-"
  (str_slice hex 20 32)))))))).

(** [UUID.wordArrayToBytes(wordArray)]; a missing word reads as
    [undefined], and [undefined >>> k] is 0. *)
Definition wordArrayToBytes (wa : wordArray) : list byte :=
  map (fun i =>
         let w := nth (i / 4) (words wa) 0 mod 2 ^ 32 in
         byte_of_Z (Z.land (Z.shiftr w (24 - Z.of_nat (i mod 4) * 8)) 255))
      (seq 0 (sigBytes wa)).

(** Combining namespace and name bytes into one [Uint8Array]. *)
Definition combine_bytes (nsBytes nameBytes : list byte) : list byte :=
  nsBytes ++ nameBytes.

(** [UUID.v4()] *)
Definition UUID_v4 (e : env) : string * env :=
  let '(bytes, e') := getRandomBytes 16 e in
  let bytes := setIdx 6 (byte_of_Z (Z.lor (Z.land (getIdx 6 bytes) 15) 64)) bytes in
  let bytes := setIdx 8 (byte_of_Z (Z.lor (Z.land (getIdx 8 bytes) 63) 128)) bytes in
  (UUID_format bytes, e').

(** [UUID.v3(namespace, name)] *)
Definition UUID_v3 (e : env) (namespace name : string) : result string :=
  match cryptoJS e with
  | None => Throw (Error "CryptoJS is required for UUID v3")
  | Some md5 =>
      let nsBytes := UUID_parse namespace in
      let nameBytes := stringToBytes name in
      let combined := combine_bytes nsBytes nameBytes in
      let bytes := wordArrayToBytes (md5 combined) in
      let bytes := setIdx 6 (byte_of_Z (Z.lor (Z.land (getIdx 6 bytes) 15) 48)) bytes in
      let bytes := setIdx 8 (byte_of_Z (Z.lor (Z.land (getIdx 8 bytes) 63) 128)) bytes in
      Ok (UUID_format bytes)
  end.

(** [UUID.v5(namespace, name)] *)
Definition UUID_v5 (e : env) (namespace name : string) : result string :=
  let nsBytes := UUID_parse namespace in
  let nameBytes := stringToBytes name in
  let combined := combine_bytes nsBytes nameBytes in
  let hashBytes := Hash_sha1 combined in
  let bytes := firstn 16 hashBytes in
  let bytes := setIdx 6 (byte_of_Z (Z.lor (Z.land (getIdx 6 bytes) 15) 80)) bytes in
  let bytes := setIdx 8 (byte_of_Z (Z.lor (Z.land (getIdx 8 bytes) 63) 128)) bytes in
  Ok (UUID_format bytes).

Definition NAMESPACE_DNS : string := "6ba7b810-9dad-11d1-80b4-00c04fd430c8".
Definition NAMESPACE_URL : string := "6ba7b811-9dad-11d1-80b4-00c04fd430c8".
Definition NAMESPACE_OID : string := "6ba7b812-9dad-11d1-80b4-00c04fd430c8".
Definition NAMESPACE_X500 : string := "6ba7b814-9dad-11d1-80b4-00c04fd430c8".

(* ------------------------------------------------------------------ *)
(** ** HexView (src/js/hex-view.js) *)

Module HexView.

(** JavaScript values as the constructor sees them in [options]. *)
Inductive jsval :=
| JUndefined | JNull | JBool (b : bool) | JNum (z : Z) | JStr (s : string) | JObj.




(** A plain object as its list of own properties in definition order; a
    later definition of a key overwrites an earlier one. *)
Definition object := list (string * jsval).

Definition get (o : object) (k : string) : jsval :=
  fold_left (fun acc kv => if String.eqb (fst kv) k then snd kv else acc) o JUndefined.


(** The options [render] reads, for numeric [bytesPerRow] and [maxRows]
    and boolean flags (the values the spec allows). *)
Record hexOptions := mkOptions {
  bytesPerRow : Z; showHeader : bool; showAscii : bool; maxRows : Z }.

(** What [render] writes to [container.innerHTML]: either the "No data"
    block, or the content: the header (formatted size of [totalBytes] and
    the "(truncated)" mark) when [showHeader], the rows given as the
    arguments [(offset, rowBytes)] of [renderRow], and the
    ["... n more bytes ..."] line when truncated. *)
Inductive view :=
| NoData
| Table (header : option (Z * bool)) (rows : list (Z * list byte)) (more : option Z).

Record hexView := mkHexView {
  data : option (list byte);
  options : hexOptions;
  html : view;
  highlightedIndex : Z }.

Definition set_data (st : hexView) (d : option (list byte)) : hexView :=
  mkHexView d (options st) (html st) (highlightedIndex st).
Definition set_html (st : hexView) (h : view) : hexView :=
  mkHexView (data st) (options st) h (highlightedIndex st).

(** [TypedArray.prototype.slice(start, end)] *)
Definition ta_slice (d : list byte) (start end_ : Z) : list byte :=
  let len := Z.of_nat (List.length d) in
  let k := if start <? 0 then Z.max (len + start) 0 else Z.min start len in
  let final := if end_ <? 0 then Z.max (len + end_) 0 else Z.min end_ len in
  firstn (Z.to_nat (final - k)) (skipn (Z.to_nat k) d).

(** [for (let offset = 0; offset < displayBytes; offset += bytesPerRow)]
    collecting [(offset, this.data.slice(offset,
    Math.min(offset + bytesPerRow, displayBytes)))]. [None] means the loop
    never exits (the offset never reaches [displayBytes], which happens
    exactly when [bytesPerRow <= 0 < displayBytes]); when [bytesPerRow >= 1]
    the loop runs at most [displayBytes] times, so [fuel = displayBytes]
    is enough. *)
Fixpoint render_rows (d : list byte) (bpr display : Z) (fuel : nat) (offset : Z)
  : option (list (Z * list byte)) :=
  if offset <? display then
    match fuel with
    | O => None
    | S f =>
        match render_rows d bpr display f (offset + bpr) with
        | Some rs => Some ((offset, ta_slice d offset (Z.min (offset + bpr) display)) :: rs)
        | None => None
        end
    end
  else Some [].

(** [render()]; [None] when it does not terminate. [bindEvents] only
    registers listeners and changes no field. *)
Definition render (st : hexView) : option hexView :=
  match data st with
  | None => Some (set_html st NoData)
  | Some d =>
      if (List.length d =? 0)%nat then Some (set_html st NoData)
      else
        let o := options st in
        let totalBytes := Z.of_nat (List.length d) in
        let displayBytes := Z.min totalBytes (bytesPerRow o * maxRows o) in
        let truncated := totalBytes >? displayBytes in
        match render_rows d (bytesPerRow o) displayBytes (Z.to_nat displayBytes) 0 with
        | None => None
        | Some rows =>
            Some (set_html st
              (Table (if showHeader o then Some (totalBytes, truncated) else None)
                 rows
                 (if truncated then Some (totalBytes - displayBytes) else None)))
        end
  end.

(** The argument of [setData]. *)
Inductive dataArg :=
| DString (s : string) | DArrayBuffer (b : list byte) | DUint8Array (b : list byte) | DOther.

Definition data_of_arg (a : dataArg) : option (list byte) :=
  match a with
  | DString s => Some (stringToBytes s)
  | DArrayBuffer b => Some b
  | DUint8Array b => Some b
  | DOther => None
  end.

(** [setData(data)] *)
Definition setData (st : hexView) (a : dataArg) : option hexView :=
  render (set_data st (data_of_arg a)).

(** [getData()] *)
Definition getData (st : hexView) : option (list byte) := data st.

(** [getHexString()] *)
Definition getHexString (st : hexView) : string :=
  match data st with
  | None => EmptyString
  | Some d => fold_right (fun b acc => append (hex2 b) acc) EmptyString d
  end.

(** The rows of a hex view partition a prefix of the buffer into
    consecutive chunks of [bpr] bytes starting at offset [off]: each row
    starts where the previous one ended, is non-empty, holds at most
    [bpr] bytes, and exactly [bpr] unless it is the last row. *)
Fixpoint rows_partition (bpr off : Z) (rows : list (Z * list byte)) : Prop :=
  match rows with
  | [] => True
  | (o, b) :: rs =>
      o = off /\ b <> [] /\ Z.of_nat (List.length b) <= bpr /\
      (rs <> [] -> Z.of_nat (List.length b) = bpr) /\
      rows_partition bpr (off + bpr) rs
  end.

(** [String.prototype.toUpperCase] on the strings it is applied to here,
    the output of [toString(16)] (digits and [a]..[f]). *)
Definition toUpperHex (s : string) : string :=
  string_of_list_ascii
    (map (fun c => let n := N_of_ascii c in
                   if ((97 <=? n) && (n <=? 122))%N then ascii_of_N (n - 32) else c)
         (list_ascii_of_string s)).

(** [byteToAscii(byte)] *)
Definition byteToAscii (b : byte) : string :=
  let n := Byte.to_N b in
  if ((32 <=? n) && (n <=? 126))%N then
    if (n =? 60)%N then "&lt;"%string
    else if (n =? 62)%N then "&gt;"%string
    else if (n =? 38)%N then "&amp;"%string
    else String (ascii_of_N n) EmptyString
  else "."%string.

(** The pieces of the HTML [renderRow] produces: in the hex column a
    [<span class="hex-byte" data-index=...>] per byte, a blank
    [<span class="hex-byte">] per missing byte and the extra [&nbsp;]
    after the 8th column; in the ASCII column a
    [<span class="hex-ascii-char[ non-printable]" data-index=...>] per byte. *)
Inductive hexCell := HexByte (index : Z) (hex : string) | HexBlank | HexGap.
Inductive asciiCell := AsciiChar (printable : bool) (index : Z) (ch : string).

Record rowHtml := mkRowHtml {
  offsetHex : string;
  hexCells : list hexCell;
  asciiCells : option (list asciiCell) }.

(** The hex-column loop [for (let i = 0; i < bytesPerRow; i++)], from
    column [i] with [n] columns left. *)
Fixpoint hex_columns (offset : Z) (bytes : list byte) (i : nat) (n : nat) : list hexCell :=
  match n with
  | O => []
  | S n' =>
      let cell :=
        if (i <? List.length bytes)%nat then
          HexByte (offset + Z.of_nat i)
            (padStart (toUpperHex (toString16 (Byte.to_N (nth i bytes x00)))) 2 "0")
        else HexBlank in
      let gap := if (i =? 7)%nat then [HexGap] else [] in
      cell :: gap ++ hex_columns offset bytes (S i) n'
  end.

(** The ASCII-column loop [for (let i = 0; i < bytes.length; i++)]. *)
Fixpoint ascii_columns (offset : Z) (bytes : list byte) (i : nat) : list asciiCell :=
  match bytes with
  | [] => []
  | b :: t =>
      let n := Byte.to_N b in
      AsciiChar ((32 <=? n) && (n <=? 126))%N (offset + Z.of_nat i) (byteToAscii b)
        :: ascii_columns offset t (S i)
  end.

(** [renderRow(offset, bytes)] for [offset >= 0]. *)
Definition renderRow (o : hexOptions) (offset : Z) (bytes : list byte) : rowHtml :=
  mkRowHtml
    (padStart (toUpperHex (toString16 (Z.to_N offset))) 8 "0")
    (hex_columns offset bytes 0 (Z.to_nat (bytesPerRow o)))
    (if showAscii o then Some (ascii_columns offset bytes 0) else None).

(** The [data-index] values of the hex and ASCII columns of a row, in
    document order. *)
Fixpoint hex_indices (cs : list hexCell) : list Z :=
  match cs with
  | [] => []
  | HexByte i _ :: t => i :: hex_indices t
  | _ :: t => hex_indices t
  end.

Definition ascii_indices (cs : list asciiCell) : list Z :=
  map (fun c => match c with AsciiChar _ i _ => i end) cs.

(** Number of byte columns (filled or blank) and of half-row gaps. *)
Definition column_count (cs : list hexCell) : nat :=
  List.length (filter (fun c => match c with HexGap => false | _ => true end) cs).
Definition gap_count (cs : list hexCell) : nat :=
  List.length (filter (fun c => match c with HexGap => true | _ => false end) cs).

(** [clear()] *)
Definition clear (st : hexView) : option hexView := render (set_data st None).

(** The [span]s of the content that [bindEvents] and [highlight] query, in
    document order: per row, the [.hex-byte] spans (the blank ones without
    [data-index]) and then, when [showAscii], the [.hex-ascii-char] spans. *)
Inductive element := HexEl (index : option Z) | AsciiEl (index : Z).

Definition element_eq_dec (x y : element) : {x = y} + {x <> y}.
Proof. decide equality; [decide equality; apply Z.eq_dec | apply Z.eq_dec]. Defined.

Definition hex_elements (cs : list hexCell) : list element :=
  flat_map (fun c => match c with
                     | HexByte i _ => [HexEl (Some i)]
                     | HexBlank => [HexEl None]
                     | HexGap => []
                     end) cs.

Definition ascii_elements (cs : list asciiCell) : list element :=
  map (fun c => match c with AsciiChar _ i _ => AsciiEl i end) cs.

Definition row_elements (o : hexOptions) (r : Z * list byte) : list element :=
  let rh := renderRow o (fst r) (snd r) in
  hex_elements (hexCells rh) ++
  match asciiCells rh with Some cs => ascii_elements cs | None => [] end.

Definition elements (st : hexView) : list element :=
  match html st with
  | NoData => []
  | Table _ rows _ => flat_map (row_elements (options st)) rows
  end.

(** [container.querySelector(sel)]: the position of the first match. *)
Fixpoint query_first (p : element -> bool) (l : list element) : option nat :=
  match l with
  | [] => None
  | e :: t => if p e then Some O else option_map S (query_first p t)
  end.

Definition is_hex_at (k : Z) (e : element) : bool :=
  match e with HexEl (Some i) => i =? k | _ => false end.
Definition is_ascii_at (k : Z) (e : element) : bool :=
  match e with AsciiEl i => i =? k | _ => false end.

(** [highlight(index)] of [bindEvents]: every [highlight] class is removed,
    then for [index >= 0] it is added to the first [.hex-byte] and the
    first [.hex-ascii-char] whose [data-index] is [index]. Returns the
    positions in [elements st] of the highlighted spans and the state
    with [highlightedIndex = index]. *)
Definition highlight (st : hexView) (index : Z) : list nat * hexView :=
  let els := elements st in
  ((if index >=? 0 then
      match query_first (is_hex_at index) els with Some p => [p] | None => [] end ++
      match query_first (is_ascii_at index) els with Some q => [q] | None => [] end
    else []),
   mkHexView (data st) (options st) (html st) index).

End HexView.

(** A stand-in for [CryptoJS.MD5], used by a witness below. *)
Definition md5_stub (m : list byte) : wordArray :=
  mkWordArray [Z.of_nat (List.length m); -1; 305419896; 0] 16.

(** Sample hex views, used by the witnesses below. *)
Definition hv_trunc_before : HexView.hexView :=
  HexView.mkHexView (Some (repeat x00 40)) (HexView.mkOptions 16 true true 2) HexView.NoData (-1).
Definition hv_trunc_after : HexView.hexView :=
  HexView.mkHexView (Some (repeat x00 40)) (HexView.mkOptions 16 true true 2)
    (HexView.Table (Some (40, true)) [(0, repeat x00 16); (16, repeat x00 16)] (Some 8)) (-1).

(** ** Base64 *)

(** The browser built-ins [btoa] and [atob] used by [Base64], after the
    HTML "forgiving-base64" encode and decode algorithms. A JS string is a
    [string] of 8-bit code units here, so [btoa]'s check that every code
    unit is at most [0xFF] always succeeds. *)
Module Base64.

Definition alphabet : list ascii :=
  list_ascii_of_string "ABCDEFGHIJKLMNOPQRSTUVWXYZabcdefghijklmnopqrstuvwxyz0123456789+/".

Definition code (n : N) : ascii := nth (N.to_nat n) alphabet "A"%char.

Fixpoint index_from (c : ascii) (l : list ascii) (i : N) : option N :=
  match l with
  | [] => None
  | x :: t => if Ascii.eqb x c then Some i else index_from c t (i + 1)
  end.

Definition value (c : ascii) : option N := index_from c alphabet 0.

(** Groups of three code units become four characters; a final group of
    two or one is padded with zero bits and then with [=]. *)
Fixpoint encode_units (l : list N) : list ascii :=
  match l with
  | a :: b :: c :: t =>
      let buf := (a * 65536 + b * 256 + c)%N in
      code (buf / 262144) :: code (buf / 4096 mod 64) :: code (buf / 64 mod 64)
        :: code (buf mod 64) :: encode_units t
  | [a; b] =>
      let buf := ((a * 256 + b) * 4)%N in
      [code (buf / 4096); code (buf / 64 mod 64); code (buf mod 64); "="%char]
  | [a] =>
      let buf := (a * 16)%N in
      [code (buf / 64); code (buf mod 64); "="%char; "="%char]
  | [] => []
  end.

Definition btoa (s : string) : string :=
  string_of_list_ascii (encode_units (map N_of_ascii (list_ascii_of_string s))).

Definition is_ascii_whitespace (c : ascii) : bool :=
  let n := N_of_ascii c in
  ((n =? 9) || (n =? 10) || (n =? 12) || (n =? 13) || (n =? 32))%N.

(** When the length is a multiple of 4, one or two trailing [=] are
    removed. *)
Definition strip_padding (d : list ascii) : list ascii :=
  if (List.length d mod 4 =? 0)%nat then
    match rev d with
    | x :: y :: r =>
        if Ascii.eqb x "=" then (if Ascii.eqb y "=" then rev r else rev (y :: r)) else d
    | [x] => if Ascii.eqb x "=" then [] else d
    | [] => d
    end
  else d.

Fixpoint values (l : list ascii) : option (list N) :=
  match l with
  | [] => Some []
  | c :: t =>
      match value c, values t with
      | Some v, Some vs => Some (v :: vs)
      | _, _ => None
      end
  end.

(** Each character appends six bits to a buffer; every 24 bits give three
    bytes; 18 or 12 remaining bits lose their last 2 or 4 bits and give
    two or one byte. *)
Fixpoint decode_values (vs : list N) : list N :=
  match vs with
  | a :: b :: c :: d :: t =>
      let buf := (a * 262144 + b * 4096 + c * 64 + d)%N in
      (buf / 65536)%N :: (buf / 256 mod 256)%N :: (buf mod 256)%N :: decode_values t
  | [a; b; c] =>
      let buf := ((a * 4096 + b * 64 + c) / 4)%N in
      [(buf / 256)%N; (buf mod 256)%N]
  | [a; b] => [((a * 64 + b) / 16)%N]
  | _ => []
  end.

(** [atob(data)]; [None] is the [InvalidCharacterError] it throws. *)
Definition atob (data : string) : option string :=
  let d := filter (fun c => negb (is_ascii_whitespace c)) (list_ascii_of_string data) in
  let d := strip_padding d in
  if (List.length d mod 4 =? 1)%nat then None
  else match values d with
       | None => None
       | Some vs => Some (string_of_list_ascii (map ascii_of_N (decode_values vs)))
       end.

(** [s.replace(/a/g, b)] for single characters. *)
Definition replace_char (a b : ascii) (s : list ascii) : list ascii :=
  map (fun c => if Ascii.eqb c a then b else c) s.

(** [Base64.encodeBytes(bytes, urlSafe)] *)
Definition encodeBytes (bytes : list byte) (urlSafe : bool) : string :=
  let binary := string_of_list_ascii (map ascii_of_byte bytes) in
  let base64 := btoa binary in
  if urlSafe then
    string_of_list_ascii
      (filter (fun c => negb (Ascii.eqb c "="))
         (replace_char "/" "_" (replace_char "+" "-" (list_ascii_of_string base64))))
  else base64.

(** [Base64.encode(str, urlSafe)] *)
Definition encode (str : string) (urlSafe : bool) : string :=
  encodeBytes (stringToBytes str) urlSafe.

(** [while (base64.length % 4) base64 += '=';] which stops after at most
    three rounds. *)
Fixpoint pad_loop (fuel : nat) (s : string) : string :=
  match fuel with
  | O => s
  | S f => if (String.length s mod 4 =? 0)%nat then s else pad_loop f (append s "=")
  end.

(** [Base64.decodeToBytes(base64, urlSafe)]; [None] when [atob] throws. *)
Definition decodeToBytes (base64 : string) (urlSafe : bool) : option (list byte) :=
  let base64 :=
    if urlSafe then
      pad_loop 3 (string_of_list_ascii
                    (replace_char "_" "/" (replace_char "-" "+" (list_ascii_of_string base64))))
    else base64 in
  match atob base64 with
  | None => None
  | Some binary => Some (map byte_of_ascii (list_ascii_of_string binary))
  end.

End Base64.

(** ** ThemeManager *)

(** The page state ThemeManager reads and writes: the [data-theme]
    attribute of [<html>], the [localStorage] entry [devtools-theme], and
    the [.theme-toggle] button as its [innerHTML] and [aria-label]
    ([None] when the page has no such button). *)
Module ThemeManager.

Definition STORAGE_KEY : string := "devtools-theme".
Definition LIGHT : string := "light".
Definition DARK : string := "dark".

Record page := mkPage {
  data_theme : option string;
  stored : option string;
  toggle_button : option (string * string) }.

(** A string is truthy when it is not empty; [null] is falsy. *)
Definition truthy_str (v : option string) : bool :=
  match v with Some s => negb (String.eqb s EmptyString) | None => false end.

Definition updateToggleButton (theme : string) (p : page) : page :=
  match toggle_button p with
  | None => p
  | Some _ =>
      mkPage (data_theme p) (stored p)
        (Some (if String.eqb theme DARK then "&#9728;"%string else "&#9790;"%string,
               if String.eqb theme DARK then "Switch to light mode"%string
               else "Switch to dark mode"%string))
  end.

Definition setTheme (theme : string) (p : page) : page :=
  updateToggleButton theme (mkPage (Some theme) (Some theme) (toggle_button p)).

(** [current === this.DARK]: [getAttribute] gives [null] when unset. *)
Definition toggle (p : page) : page :=
  let next := match data_theme p with
              | Some c => if String.eqb c DARK then LIGHT else DARK
              | None => DARK
              end in
  setTheme next p.

(** [init()], given whether the system prefers a dark scheme; the
    listeners [bindEvents] registers are the events of [step]. *)
Definition init (prefersDark : bool) (p : page) : page :=
  let fallback := if prefersDark then DARK else LIGHT in
  let theme := if truthy_str (stored p)
               then match stored p with Some s => s | None => fallback end
               else fallback in
  setTheme theme p.

Inductive event := ToggleClick | SystemChange (matches : bool).

(** The listeners: a click on the toggle button (registered only when the
    button exists) and a change of the system color scheme. *)
Definition step (p : page) (e : event) : page :=
  match e with
  | ToggleClick => match toggle_button p with Some _ => toggle p | None => p end
  | SystemChange m => if truthy_str (stored p) then p else setTheme (if m then DARK else LIGHT) p
  end.

Definition run (p : page) (es : list event) : page := fold_left step es p.

(** The button label [updateToggleButton] writes for a theme. *)
Definition button_for (theme : string) : string * string :=
  (if String.eqb theme DARK then "&#9728;"%string else "&#9790;"%string,
   if String.eqb theme DARK then "Switch to light mode"%string else "Switch to dark mode"%string).

End ThemeManager.

(** ** Navigation *)

Module Navigation.

Definition drop_prefix (pre s : string) : string :=
  if String.prefix pre s then substring (String.length pre) (String.length s - String.length pre) s
  else s.

(** [href.replace(/^\.\.\//, '').replace(/^\.\//, '')] *)
Definition strip_href (href : string) : string := drop_prefix "./" (drop_prefix "../" href).

(** [s.endsWith(suffix)] *)
Definition endsWith (s suffix : string) : bool :=
  let n := String.length s in
  let m := String.length suffix in
  (m <=? n)%nat && String.eqb (substring (n - m) m s) suffix.

(** Whether [init()] adds [active] to a link with attribute [href]
    ([None] for a missing attribute) on the page [currentPath]. *)
Definition is_active (currentPath : string) (href : option string) : bool :=
  match href with
  | None => false
  | Some h => negb (String.eqb h EmptyString) && endsWith currentPath (strip_href h)
  end.

(** [init()]: the [active] flag of each [.nav-link], in document order. *)
Definition init (currentPath : string) (links : list (option string)) : list bool :=
  map (is_active currentPath) links.

End Navigation.

(** ** FileUpload *)

Module FileUpload.

Record file := mkFile { name : string; size : Z; contents : list byte }.

(** [showError] messages, with the sizes the message formats. *)
Inductive message := SizeExceeded (size maxSize : Z) | ReadFailed.

(** The callbacks' calls, in order. *)
Inductive callback := OnFile (f : file) (d : list byte) | OnError (m : message).

Record upload := mkUpload {
  maxSize : Z;
  hasOnFile : bool;
  hasOnError : bool;
  current : option file;
  fileData : option (list byte);
  nameText : string;
  sizeOf : option Z;
  dropZoneHidden : bool;
  fileInfoHidden : bool;
  inputValue : string;
  errors : list message;
  calls : list callback }.

(** [handleFile(file)] run to completion with nothing else running at its
    [await], with the outcome of [readFile(file)]: [Some] the
    file's bytes, or [None] when the [FileReader] fails. The size shown is
    [formatSize(file.size)], kept as the number. *)
Definition handleFile (u : upload) (f : file) (read : option (list byte)) : upload :=
  if size f >? maxSize u then
    let m := SizeExceeded (size f) (maxSize u) in
    mkUpload (maxSize u) (hasOnFile u) (hasOnError u) (current u) (fileData u)
      (nameText u) (sizeOf u) (dropZoneHidden u) (fileInfoHidden u) (inputValue u)
      (errors u ++ [m]) (calls u ++ if hasOnError u then [OnError m] else [])
  else
    match read with
    | Some d =>
        mkUpload (maxSize u) (hasOnFile u) (hasOnError u) (Some f) (Some d)
          (name f) (Some (size f)) true false (inputValue u)
          (errors u) (calls u ++ if hasOnFile u then [OnFile f d] else [])
    | None =>
        mkUpload (maxSize u) (hasOnFile u) (hasOnError u) (Some f) (fileData u)
          (name f) (Some (size f)) true false (inputValue u)
          (errors u ++ [ReadFailed]) (calls u ++ if hasOnError u then [OnError ReadFailed] else [])
    end.

(** [clear()] *)
Definition clear (u : upload) : upload :=
  mkUpload (maxSize u) (hasOnFile u) (hasOnError u) None None
    (nameText u) (sizeOf u) false true EmptyString (errors u) (calls u).

Definition getFile (u : upload) : option file := current u.
Definition getData (u : upload) : option (list byte) := fileData u.
(** [this.fileData ? new Uint8Array(this.fileData) : null]; an
    [ArrayBuffer] is always truthy. *)
Definition getBytes (u : upload) : option (list byte) :=
  match fileData u with Some d => Some d | None => None end.

End FileUpload.

(** A sequence of calls on an upload component. *)
Module FileUploadRun.
Import FileUpload.

(** [new FileUpload(container, options)] with [options.maxSize] absent
    ([None]) or a number: [options.maxSize || 50 MB] is overwritten by
    the spread [...options] whenever the key is present. *)
Definition create (maxSizeOpt : option Z) (onFile onError : bool) : upload :=
  mkUpload (match maxSizeOpt with Some m => m | None => 50 * 1024 * 1024 end)
    onFile onError None None EmptyString None false true EmptyString [] [].

(** [handleFile(file)] up to [await this.readFile(file)]: the size check
    (which ends the call), then [this.file] and the UI. The [bool] tells
    whether the read was started, i.e. whether the call is now suspended. *)
Definition handleFile_begin (u : upload) (f : file) : upload * bool :=
  if size f >? maxSize u then
    let m := SizeExceeded (size f) (maxSize u) in
    (mkUpload (maxSize u) (hasOnFile u) (hasOnError u) (current u) (fileData u)
       (nameText u) (sizeOf u) (dropZoneHidden u) (fileInfoHidden u) (inputValue u)
       (errors u ++ [m]) (calls u ++ if hasOnError u then [OnError m] else []), false)
  else
    (mkUpload (maxSize u) (hasOnFile u) (hasOnError u) (Some f) (fileData u)
       (name f) (Some (size f)) true false (inputValue u) (errors u) (calls u), true).

(** The rest of a suspended [handleFile(file)] once the read settles, on
    the state at that time: [this.fileData = ...] and [onFile(file,
    this.fileData)], or the [catch] block. *)
Definition handleFile_resume (u : upload) (f : file) (read : option (list byte)) : upload :=
  match read with
  | Some d =>
      mkUpload (maxSize u) (hasOnFile u) (hasOnError u) (current u) (Some d)
        (nameText u) (sizeOf u) (dropZoneHidden u) (fileInfoHidden u) (inputValue u)
        (errors u) (calls u ++ if hasOnFile u then [OnFile f d] else [])
  | None =>
      mkUpload (maxSize u) (hasOnFile u) (hasOnError u) (current u) (fileData u)
        (nameText u) (sizeOf u) (dropZoneHidden u) (fileInfoHidden u) (inputValue u)
        (errors u ++ [ReadFailed]) (calls u ++ if hasOnError u then [OnError ReadFailed] else [])
  end.

End FileUploadRun.

(** Helper predicates used by the properties below: a string contains a
    character, a string has no dash, the URL-safe character mapping of
    [Base64.encode] and its inverse in [Base64.decodeToBytes], the URL-safe
    alphabet, the padding lengths the encoder produces, and the state the
    theme manager keeps consistent. *)

Definition has_char (c : ascii) (s : string) : bool :=
  existsb (fun x => Ascii.eqb x c) (list_ascii_of_string s).

Definition nodash (s : string) : bool :=
  forallb (fun c => negb (Ascii.eqb c "-")) (list_ascii_of_string s).

Definition b64_url (c : ascii) : ascii :=
  let c := if Ascii.eqb c "+" then "-"%char else c in
  if Ascii.eqb c "/" then "_"%char else c.
Definition b64_unurl (c : ascii) : ascii :=
  let c := if Ascii.eqb c "-" then "+"%char else c in
  if Ascii.eqb c "_" then "/"%char else c.
Definition url_alphabet : list ascii :=
  list_ascii_of_string "ABCDEFGHIJKLMNOPQRSTUVWXYZabcdefghijklmnopqrstuvwxyz0123456789-_".

Definition b64_pad_ok (p k : nat) : Prop :=
  (p = 0 /\ k mod 4 = 0)%nat \/ (p = 1 /\ k mod 4 = 3)%nat \/ (p = 2 /\ k mod 4 = 2)%nat.

Definition theme_inv (b0 : option (string * string)) (p : ThemeManager.page) : Prop :=
  exists t, ThemeManager.data_theme p = Some t /\ ThemeManager.stored p = Some t /\
    t <> EmptyString /\
    ThemeManager.toggle_button p = option_map (fun _ => ThemeManager.button_for t) b0.

(** The four bytes of a 32-bit word, most significant first, for a word
    read as an unsigned 32-bit value. *)
Definition be_bytes (w : Z) : list byte :=
  let u := w mod 2 ^ 32 in
  [byte_of_Z (u / 2 ^ 24); byte_of_Z (u / 2 ^ 16); byte_of_Z (u / 2 ^ 8); byte_of_Z u].

(* ================================================================== *)
(** * Proofs *)

Example hexToBytes_ex1 : hexToBytes "00ff7f" = [x00; xff; x7f].
Proof. reflexivity. Qed.
Example bytesToHex_ex1 : bytesToHex [x00; xff; x0a] = "00ff0a"%string.
Proof. reflexivity. Qed.
Example hexToBytes_ex2 : hexToBytes "zz1g-1" = [x00; x01; xff].
Proof. reflexivity. Qed.
Example hexToBytes_ex3 : hexToBytes "abc" = [xab].
Proof. reflexivity. Qed.

(** ** Strings and typed arrays *)

Lemma length_append (s t : string) :
  String.length (append s t) = (String.length s + String.length t)%nat.
Proof. induction s; simpl; auto. Qed.

Lemma append_assoc (s t u : string) :
  append s (append t u) = append (append s t) u.
Proof. induction s; simpl; congruence. Qed.

Lemma substring_append (pre rest : string) (m : nat) :
  substring (String.length pre) m (append pre rest) = substring 0 m rest.
Proof. induction pre; simpl; auto. Qed.

Lemma setIdx_oob (i : nat) (x : byte) (a : list byte) :
  (List.length a <= i)%nat -> setIdx i x a = a.
Proof.
  revert i; induction a as [|y t IH]; intros i Hi; destruct i; simpl in *;
    auto; try lia.
  rewrite IH; auto; lia.
Qed.

Lemma setIdx_app (P t : list byte) (x y : byte) :
  setIdx (List.length P) x (P ++ y :: t) = P ++ x :: t.
Proof. induction P; simpl; congruence. Qed.

Lemma hexToBytes_loop_done (hex : string) (fuel i : nat) (b : list byte) :
  (String.length hex <= i)%nat -> hexToBytes_loop hex fuel i b = b.
Proof.
  intros H; destruct fuel; simpl; auto.
  destruct (Nat.ltb_spec i (String.length hex)); auto; lia.
Qed.

Lemma div_SS (n : nat) : (S (S n) / 2 = S (n / 2))%nat.
Proof.
  replace (S (S n)) with (n + 1 * 2)%nat by lia.
  rewrite Nat.div_add by lia. lia.
Qed.

Lemma div_SS_plus1 (n : nat) : ((S (S n) + 1) / 2 = S ((n + 1) / 2))%nat.
Proof. replace (S (S n) + 1)%nat with (S (S (n + 1))) by lia. apply div_SS. Qed.

(** The loop invariant of [hexToBytes]: after [k] iterations the first [k]
    bytes hold the decoded pairs, the rest are still zero. *)
Lemma hexToBytes_loop_pairs (fuel : nat) : forall (rest pre : string) (P : list byte),
  List.length P = Nat.div2 (String.length pre) ->
  Nat.Even (String.length pre) ->
  ((String.length rest + 1) / 2 <= fuel)%nat ->
  hexToBytes_loop (append pre rest) fuel (String.length pre)
    (P ++ repeat x00 (String.length rest / 2)) = P ++ hexPairs rest.
Proof.
  induction fuel as [|f IH]; intros rest pre P HP He Hf.
  - destruct rest as [|a [|c r]].
    + simpl; auto.
    + simpl; auto.
    + exfalso. cbn [String.length] in Hf. rewrite div_SS_plus1 in Hf. lia.
  - destruct rest as [|a [|c r]].
    + rewrite hexToBytes_loop_done; [reflexivity|].
      rewrite length_append; simpl; lia.
    + cbn [hexToBytes_loop]. rewrite length_append; cbn [String.length].
      destruct (Nat.ltb_spec (String.length pre) (String.length pre + 1)); [|lia].
      simpl (1 / 2)%nat; rewrite !app_nil_r.
      rewrite setIdx_oob.
      2: { rewrite HP. destruct He as [k Hk]. rewrite Hk, Nat.div2_double.
           rewrite Nat.mul_comm, Nat.div_mul by lia. lia. }
      apply hexToBytes_loop_done. rewrite length_append; simpl; lia.
    + cbn [hexToBytes_loop]. rewrite length_append; cbn [String.length].
      destruct (Nat.ltb_spec (String.length pre)
                  (String.length pre + S (S (String.length r)))); [|lia].
      assert (Hk : (String.length pre / 2 = List.length P)%nat).
      { rewrite HP. destruct He as [k Hk]. rewrite Hk, Nat.div2_double.
        rewrite Nat.mul_comm, Nat.div_mul by lia. auto. }
      rewrite Hk, substring_append, div_SS.
      cbn [repeat]. rewrite setIdx_app.
      specialize (IH r (append pre (String a (String c EmptyString)))
                    (P ++ [toUint8 (parseInt16 (String a (String c EmptyString)))])).
      rewrite <- append_assoc in IH. cbn [append] in IH.
      rewrite length_append in IH; cbn [String.length] in IH.
      rewrite <- !app_assoc in IH. cbn [app] in IH.
      cbn [hexPairs substring].
      replace (substring 0 0 r) with EmptyString by (destruct r; reflexivity).
      apply IH.
      * rewrite List.length_app, HP; simpl.
        replace (String.length pre + 2)%nat with (S (S (String.length pre))) by lia.
        simpl Nat.div2. lia.
      * destruct He as [k Hk2]. exists (S k). lia.
      * cbn [String.length] in Hf. rewrite div_SS_plus1 in Hf. lia.
Qed.

Lemma hexToBytes_pairs (hex : string) : hexToBytes hex = hexPairs hex.
Proof.
  unfold hexToBytes.
  apply (hexToBytes_loop_pairs _ hex EmptyString []);
    [reflexivity | exists 0%nat; reflexivity |].
  destruct (String.length hex) as [|n]; [reflexivity|].
  apply Nat.Div0.div_le_upper_bound; lia.
Qed.

Example sha1_abc : bytesToHex (Hash_sha1 (stringToBytes "abc"))
  = "a9993e364706816aba3e25717850c26c9cd0d89d"%string.
Proof. vm_compute. reflexivity. Qed.

Example v5_dns_example : UUID_v5 (mkEnv 0 (fun _ => x00) None) NAMESPACE_DNS "example.com"
  = Ok "cfbff0d1-9375-5685-968c-48ce8b15ae17"%string.
Proof. vm_compute. reflexivity. Qed.

Example render_17 :
  exists st', HexView.render (HexView.mkHexView (Some (repeat x41 17))
     (HexView.mkOptions 16 true true 100) HexView.NoData (-1)) = Some st'.
Proof. eexists. vm_compute. reflexivity. Qed.

(** ** Hex encoding of single bytes *)

Lemma hex2_shape (b : byte) :
  hex2 b = String (hexDigit (Byte.to_N b / 16)) (String (hexDigit (Byte.to_N b mod 16)) EmptyString).
Proof. destruct b; reflexivity. Qed.

Lemma hex2_parse (b : byte) : toUint8 (parseInt16 (hex2 b)) = b.
Proof. destruct b; reflexivity. Qed.

Lemma hexPairs_bytesToHex (bs : list byte) : hexPairs (bytesToHex bs) = bs.
Proof.
  induction bs as [|b t IH]; [reflexivity|].
  cbn [bytesToHex]. rewrite hex2_shape. cbn [append hexPairs].
  rewrite IH, <- hex2_shape, hex2_parse. reflexivity.
Qed.

(** [C2] For every byte buffer [b], [hexToBytes (bytesToHex b) = b]; the
    empty buffer maps to the empty string, and [bytesToHex] writes each
    byte as two lowercase hex digits (high nibble first), in order. *)
Theorem hexToBytes_bytesToHex (b : list byte) :
  hexToBytes (bytesToHex b) = b /\
  bytesToHex [] = EmptyString /\
  (forall (x : byte) (t : list byte),
     bytesToHex (x :: t) =
     String (hexDigit (Byte.to_N x / 16)) (String (hexDigit (Byte.to_N x mod 16)) (bytesToHex t))).
Proof.
  split; [rewrite hexToBytes_pairs; apply hexPairs_bytesToHex|].
  split; [reflexivity|].
  intros x t. cbn [bytesToHex]. rewrite hex2_shape. reflexivity.
Qed.

(** ** hexToBytes never fails *)

Lemma hexPairs_spec (n : nat) : forall s : string, (String.length s <= n)%nat ->
  List.length (hexPairs s) = (String.length s / 2)%nat /\
  forall k : nat, (k < String.length s / 2)%nat ->
    nth k (hexPairs s) x00 = toUint8 (parseInt16 (substring (2 * k) 2 s)).
Proof.
  induction n as [|n IH]; intros s Hs.
  - destruct s; simpl in Hs; [|lia]. split; [reflexivity|]. simpl; lia.
  - destruct s as [|a [|c r]].
    + split; [reflexivity|]. simpl; lia.
    + split; [reflexivity|]. simpl; lia.
    + cbn [String.length] in *. rewrite div_SS.
      destruct (IH r) as [IHl IHn]; [lia|].
      split; [cbn [hexPairs List.length]; rewrite IHl; reflexivity|].
      intros [|k] Hk.
      * cbn. replace (substring 0 0 r) with EmptyString by (destruct r; reflexivity).
        reflexivity.
      * cbn [hexPairs nth].
        replace (2 * S k)%nat with (S (S (2 * k))) by lia.
        cbn [substring]. apply IHn. lia.
Qed.

(** [C5] (amended) [hexToBytes] never fails: for every string [s] it returns
    [floor (length s / 2)] bytes, byte [k] being ToUint8 of
    [parseInt(s.substr(2k, 2), 16)] ([NaN] gives 0); odd length and
    non-hex pairs are not detected. *)
Theorem hexToBytes_total (s : string) :
  List.length (hexToBytes s) = (String.length s / 2)%nat /\
  forall k : nat, (k < String.length s / 2)%nat ->
    nth k (hexToBytes s) x00 = toUint8 (parseInt16 (substring (2 * k) 2 s)).
Proof. rewrite hexToBytes_pairs. apply (hexPairs_spec (String.length s)). lia. Qed.

(** [C5] counterexample: an odd-length string and non-hex pairs still
    yield a buffer: ["abc"] gives [[0xab]], ["zz"] gives [[0x00]] and
    ["1g"] gives [[0x01]]. *)
Lemma hexToBytes_malformed_returns :
  hexToBytes "abc" = [xab] /\ hexToBytes "zz" = [x00] /\ hexToBytes "1g" = [x01].
Proof. repeat split; reflexivity. Qed.

(** ** UUID.parse *)

(** [C6] (amended) [UUID.parse] removes every ['-'] and returns
    [hexToBytes] of the rest; it never fails: whatever the digit count,
    the characters or the grouping, it returns [floor (n / 2)] bytes for
    the [n] remaining characters. *)
Theorem UUID_parse_lenient (text : string) :
  UUID_parse text = hexToBytes (removeDashes text) /\
  List.length (UUID_parse text) = (String.length (removeDashes text) / 2)%nat.
Proof. split; [reflexivity|]. apply hexToBytes_total. Qed.

(** [C6] counterexample: ["abc"] (3 digits) and 32 non-hex characters are
    not rejected. *)
Lemma UUID_parse_malformed_returns :
  UUID_parse "ab-c" = [xab] /\
  UUID_parse "zzzzzzzz-zzzz-zzzz-zzzz-zzzzzzzzzzzz" = repeat x00 16.
Proof. repeat split; reflexivity. Qed.

(** ** Version and variant stamping *)

(** The version nibble written by [(b & 0x0f) | (version << 4)]. *)
Lemma stamp_version (b : byte) (ver : N) : List.In ver [3%N; 4%N; 5%N] ->
  (Byte.to_N (byte_of_Z (Z.lor (Z.land (byte_val b) 15) (Z.of_N ver * 16))) / 16)%N = ver.
Proof.
  intros [<-|[<-|[<-|[]]]]; destruct b; reflexivity.
Qed.

(** The variant bits written by [(b & 0x3f) | 0x80]. *)
Lemma stamp_variant (b : byte) :
  (Byte.to_N (byte_of_Z (Z.lor (Z.land (byte_val b) 63) 128)) / 64)%N = 2%N /\
  exists d : N, (8 <= d <= 11)%N /\
    (Byte.to_N (byte_of_Z (Z.lor (Z.land (byte_val b) 63) 128)) / 16)%N = d.
Proof.
  destruct b; split; try reflexivity; eexists; split; try reflexivity; vm_compute;
    split; discriminate.
Qed.

(** A formatted UUID carrying version [ver] and the RFC 4122 variant: it is
    [UUID.format] of 16 bytes whose byte 6 has high nibble [ver] and whose
    byte 8 has high bits [10]; as text it has 36 characters, its 13th hex
    digit (character 14) is [ver] and its 17th hex digit (character 19) is
    one of [8], [9], [a], [b]. *)
Definition stamped_uuid (ver : N) (u : string) : Prop :=
  exists bytes : list byte,
    List.length bytes = 16%nat /\ u = UUID_format bytes /\
    (Byte.to_N (nth 6 bytes x00) / 16)%N = ver /\
    (Byte.to_N (nth 8 bytes x00) / 64)%N = 2%N /\
    String.length u = 36%nat /\
    String.get 14 u = Some (hexDigit ver) /\
    exists d : N, (8 <= d <= 11)%N /\ String.get 19 u = Some (hexDigit d).

(** Any 16 bytes stamped the way [v3], [v4] and [v5] do it. *)
Lemma stamp_format (ver : N) (bytes : list byte) :
  List.In ver [3%N; 4%N; 5%N] -> List.length bytes = 16%nat ->
  let bytes1 := setIdx 6 (byte_of_Z (Z.lor (Z.land (getIdx 6 bytes) 15) (Z.of_N ver * 16))) bytes in
  let bytes2 := setIdx 8 (byte_of_Z (Z.lor (Z.land (getIdx 8 bytes1) 63) 128)) bytes1 in
  stamped_uuid ver (UUID_format bytes2).
Proof.
  intros Hv Hl.
  destruct bytes as [|c0 [|c1 [|c2 [|c3 [|c4 [|c5 [|c6 [|c7 [|c8 [|c9
    [|c10 [|c11 [|c12 [|c13 [|c14 [|c15 [|]]]]]]]]]]]]]]]]]; try discriminate.
  cbv zeta. unfold getIdx. cbn [setIdx nth].
  set (s6 := byte_of_Z (Z.lor (Z.land (byte_val c6) 15) (Z.of_N ver * 16))).
  set (s8 := byte_of_Z (Z.lor (Z.land (byte_val c8) 63) 128)).
  assert (H6 : (Byte.to_N s6 / 16)%N = ver) by (apply stamp_version; auto).
  destruct (stamp_variant c8) as [H8 [d [Hd H8']]]. fold s8 in H8, H8'.
  exists [c0; c1; c2; c3; c4; c5; s6; c7; s8; c9; c10; c11; c12; c13; c14; c15].
  repeat split; auto.
  - unfold UUID_format, str_slice. cbn [bytesToHex]. rewrite !hex2_shape. reflexivity.
  - unfold UUID_format, str_slice. cbn [bytesToHex]. rewrite !hex2_shape.
    rewrite H6. reflexivity.
  - exists d. split; auto.
    unfold UUID_format, str_slice. cbn [bytesToHex]. rewrite !hex2_shape.
    rewrite H8'. reflexivity.
Qed.

Lemma sha1_length (m : list byte) : List.length (Hash_sha1 m) = 20%nat.
Proof.
  unfold Hash_sha1, SHA1.digest.
  destruct (SHA1.blocks _ _ _) as [[[[h0 h1] h2] h3] h4]. reflexivity.
Qed.

Lemma wordArrayToBytes_length (wa : wordArray) :
  List.length (wordArrayToBytes wa) = sigBytes wa.
Proof. unfold wordArrayToBytes. rewrite List.length_map, List.length_seq. reflexivity. Qed.

(** [C1] Every UUID returned by [UUID.v4], [UUID.v3] and [UUID.v5] is
    stamped before formatting: byte 6 has high nibble 4, 3 or 5 and byte 8
    has high bits [10], so the 13th hex digit is the version and the 17th
    is one of [8], [9], [a], [b]. For [v3] the MD5 primitive of
    [CryptoJS] is available and returns its 16-byte digest. *)
Theorem uuid_version_variant (e : env) (namespace name : string) :
  stamped_uuid 4 (fst (UUID_v4 e)) /\
  (forall md5 : list byte -> wordArray,
     cryptoJS e = Some md5 -> (forall m, sigBytes (md5 m) = 16%nat) ->
     exists u, UUID_v3 e namespace name = Ok u /\ stamped_uuid 3 u) /\
  (exists u, UUID_v5 e namespace name = Ok u /\ stamped_uuid 5 u).
Proof.
  split; [|split].
  - unfold UUID_v4, getRandomBytes. cbn [fst].
    apply (stamp_format 4%N); [simpl; auto|].
    rewrite List.length_map, List.length_seq. reflexivity.
  - intros md5 Hjs Hmd5. unfold UUID_v3. rewrite Hjs.
    eexists; split; [reflexivity|].
    apply (stamp_format 3%N); [simpl; auto|].
    rewrite wordArrayToBytes_length. apply Hmd5.
  - unfold UUID_v5. eexists; split; [reflexivity|].
    apply (stamp_format 5%N); [simpl; auto|].
    rewrite List.length_firstn, sha1_length. reflexivity.
Qed.

Lemma uuid_version_variant_witness :
  cryptoJS (mkEnv 0 (fun _ => xff) (Some md5_stub)) = Some md5_stub /\
  (forall m, sigBytes (md5_stub m) = 16%nat) /\
  exists u, UUID_v3 (mkEnv 0 (fun _ => xff) (Some md5_stub)) NAMESPACE_URL "x" = Ok u /\
            stamped_uuid 3 u.
Proof.
  split; [reflexivity|]. split; [intros; reflexivity|].
  apply (proj1 (proj2 (uuid_version_variant (mkEnv 0 (fun _ => xff) (Some md5_stub))
                        NAMESPACE_URL "x")) md5_stub); [reflexivity|].
  intros; reflexivity.
Defined.

(** [C7] [UUID.v5] is deterministic: its result depends only on the
    namespace and the name, not on the random source nor on [CryptoJS]; in
    particular [v5(NAMESPACE_DNS, "example.com")] is always
    ["cfbff0d1-9375-5685-968c-48ce8b15ae17"]. *)
Theorem UUID_v5_deterministic :
  (forall (e1 e2 : env) (namespace name : string),
     UUID_v5 e1 namespace name = UUID_v5 e2 namespace name) /\
  (forall e : env,
     UUID_v5 e NAMESPACE_DNS "example.com" = Ok "cfbff0d1-9375-5685-968c-48ce8b15ae17"%string).
Proof.
  split.
  - intros. reflexivity.
  - intros e. vm_compute. reflexivity.
Qed.

(** [C8] Without [CryptoJS], [UUID.v3] fails with the error
    ["CryptoJS is required for UUID v3"], thrown by its explicit check
    before any use of the library, and returns no value. *)
Theorem UUID_v3_missing_md5 (e : env) (namespace name : string) :
  cryptoJS e = None ->
  UUID_v3 e namespace name = Throw (Error "CryptoJS is required for UUID v3").
Proof. intros H. unfold UUID_v3. rewrite H. reflexivity. Qed.

Lemma UUID_v3_missing_md5_witness :
  cryptoJS (mkEnv 3 (fun _ => x00) None) = None /\
  UUID_v3 (mkEnv 3 (fun _ => x00) None) NAMESPACE_DNS ""
    = Throw (Error "CryptoJS is required for UUID v3").
Proof.
  split; [reflexivity|]. apply UUID_v3_missing_md5. reflexivity.
Defined.

(** ** HexView.render *)

Lemma firstn_add {A : Type} (a b : nat) (l : list A) :
  firstn (a + b) l = firstn a l ++ firstn b (skipn a l).
Proof.
  revert l; induction a as [|a IH]; intros l; [reflexivity|].
  destruct l as [|x t]; simpl; [rewrite firstn_nil; reflexivity|].
  rewrite IH; reflexivity.
Qed.

Lemma ta_slice_range (d : list byte) (start end_ : Z) :
  0 <= start <= end_ -> end_ <= Z.of_nat (List.length d) ->
  HexView.ta_slice d start end_ = firstn (Z.to_nat (end_ - start)) (skipn (Z.to_nat start) d).
Proof.
  intros H1 H2. unfold HexView.ta_slice.
  destruct (Z.ltb_spec start 0); [lia|]. destruct (Z.ltb_spec end_ 0); [lia|].
  rewrite (Z.min_l start) by lia. rewrite (Z.min_l end_) by lia. reflexivity.
Qed.

(** The row loop of [render], for [bytesPerRow >= 1]. *)
Lemma render_rows_spec (d : list byte) (bpr display : Z) :
  1 <= bpr -> display <= Z.of_nat (List.length d) ->
  forall (fuel : nat) (off : Z), 0 <= off -> (Z.to_nat (display - off) <= fuel)%nat ->
  exists rows,
    HexView.render_rows d bpr display fuel off = Some rows /\
    HexView.rows_partition bpr off rows /\
    List.concat (map snd rows) = firstn (Z.to_nat (display - off)) (skipn (Z.to_nat off) d).
Proof.
  intros Hb Hd fuel. induction fuel as [|f IH]; intros off Ho Hf.
  - exists []. cbn. destruct (Z.ltb_spec off display); [lia|].
    repeat split. replace (Z.to_nat (display - off)) with 0%nat by lia. reflexivity.
  - cbn [HexView.render_rows]. destruct (Z.ltb_spec off display) as [Hlt|Hge].
    + destruct (IH (off + bpr)) as [rs [Hrs [Hp Hc]]]; [lia|lia|].
      rewrite Hrs. eexists; split; [reflexivity|].
      rewrite ta_slice_range by lia.
      set (row := firstn _ (skipn (Z.to_nat off) d)).
      assert (Hlen : Z.of_nat (List.length row) = Z.min (off + bpr) display - off).
      { unfold row. rewrite List.length_firstn, List.length_skipn. lia. }
      split; [repeat split|].
      * intros E. rewrite E in Hlen. simpl in Hlen. lia.
      * lia.
      * intros Hne. destruct rs as [|r rs]; [congruence|].
        destruct r as [o b]. destruct Hp as [_ [Hbne _]].
        destruct (Z.leb_spec (off + bpr) display); [lia|].
        exfalso. apply Hbne. apply length_zero_iff_nil.
        assert (Hcl : List.length (List.concat (map snd ((o, b) :: rs))) = 0%nat).
        { rewrite Hc, List.length_firstn. lia. }
        cbn [map List.concat snd] in Hcl. rewrite List.length_app in Hcl. lia.
      * exact Hp.
      * cbn [map List.concat snd]. rewrite Hc. unfold row.
        destruct (Z.leb_spec (off + bpr) display).
        -- rewrite Z.min_l by lia.
           replace (Z.to_nat (display - off))
             with (Z.to_nat (off + bpr - off) + Z.to_nat (display - (off + bpr)))%nat by lia.
           rewrite firstn_add, skipn_skipn.
           replace (Z.to_nat (off + bpr - off) + Z.to_nat off)%nat
             with (Z.to_nat (off + bpr)) by lia.
           reflexivity.
        -- rewrite Z.min_r by lia.
           replace (Z.to_nat (display - (off + bpr))) with 0%nat by lia.
           rewrite firstn_O, app_nil_r. reflexivity.
    + exists []. repeat split. replace (Z.to_nat (display - off)) with 0%nat by lia. reflexivity.
Qed.

(** The rows [render] builds for a non-empty buffer and a configuration
    with [bytesPerRow >= 0] and [maxRows >= 0]: the loop terminates and
    partitions the displayed prefix. *)
Lemma render_rows_displayed (d : list byte) (o : HexView.hexOptions) :
  0 <= HexView.bytesPerRow o -> 0 <= HexView.maxRows o ->
  let displayBytes :=
    Z.min (Z.of_nat (List.length d)) (HexView.bytesPerRow o * HexView.maxRows o) in
  exists rows,
    HexView.render_rows d (HexView.bytesPerRow o) displayBytes (Z.to_nat displayBytes) 0
      = Some rows /\
    HexView.rows_partition (HexView.bytesPerRow o) 0 rows /\
    List.concat (map snd rows) = firstn (Z.to_nat displayBytes) d.
Proof.
  intros Hb Hm displayBytes.
  assert (Hd0 : 0 <= displayBytes) by (unfold displayBytes; nia).
  destruct (Z.eq_dec displayBytes 0) as [E|NE].
  - rewrite E. exists []. repeat split.
  - destruct (render_rows_spec d (HexView.bytesPerRow o) displayBytes) with
      (fuel := Z.to_nat displayBytes) (off := 0) as [rows [H1 [H2 H3]]].
    + unfold displayBytes in *. nia.
    + unfold displayBytes; lia.
    + lia.
    + lia.
    + exists rows. rewrite Z.sub_0_r, skipn_O in H3. auto.
Qed.

(** [C3] For [bytesPerRow >= 0] and [maxRows >= 0]: [render] on an absent
    or empty buffer shows the "No data" state; on a non-empty buffer it
    terminates and its rows partition exactly the first
    [displayedLength = min(totalLength, bytesPerRow * maxRows)] bytes into
    consecutive chunks of [bytesPerRow] bytes, the last one possibly
    shorter but never empty; a 17-byte buffer with [bytesPerRow = 16]
    (and at least 2 rows allowed) gives exactly 2 rows, of 16 and 1 bytes. *)
Theorem render_rows_partition (st : HexView.hexView) :
  0 <= HexView.bytesPerRow (HexView.options st) ->
  0 <= HexView.maxRows (HexView.options st) ->
  ((HexView.data st = None \/ HexView.data st = Some []) ->
     HexView.render st = Some (HexView.set_html st HexView.NoData)) /\
  (forall d : list byte, HexView.data st = Some d -> d <> [] ->
     exists hdr rows more,
       HexView.render st = Some (HexView.set_html st (HexView.Table hdr rows more)) /\
       HexView.rows_partition (HexView.bytesPerRow (HexView.options st)) 0 rows /\
       List.concat (map snd rows) =
         firstn (Z.to_nat (Z.min (Z.of_nat (List.length d))
                   (HexView.bytesPerRow (HexView.options st) * HexView.maxRows (HexView.options st)))) d) /\
  (forall d : list byte, HexView.data st = Some d -> List.length d = 17%nat ->
     HexView.bytesPerRow (HexView.options st) = 16 ->
     2 <= HexView.maxRows (HexView.options st) ->
     exists hdr r1 r2 more,
       HexView.render st = Some (HexView.set_html st (HexView.Table hdr [r1; r2] more)) /\
       List.length (snd r1) = 16%nat /\ List.length (snd r2) = 1%nat).
Proof.
  intros Hb Hm. split; [|split].
  - intros [E|E]; unfold HexView.render; rewrite E; reflexivity.
  - intros d E Hne. unfold HexView.render. rewrite E.
    destruct (Nat.eqb_spec (List.length d) 0) as [L|L].
    { apply length_zero_iff_nil in L. contradiction. }
    destruct (render_rows_displayed d (HexView.options st) Hb Hm) as [rows [H1 [H2 H3]]].
    cbv zeta in H1. rewrite H1. do 3 eexists. split; [reflexivity|]. auto.
  - intros d E L B M. unfold HexView.render. rewrite E, L, B. cbn [Nat.eqb].
    rewrite Z.min_l by lia. cbn -[HexView.ta_slice].
    do 4 eexists. split; [reflexivity|].
    cbn [snd]. rewrite !ta_slice_range by lia.
    rewrite !List.length_firstn, !List.length_skipn, L. split; reflexivity.
Qed.

Lemma render_rows_partition_witness :
  0 <= 16 /\ 0 <= 100 /\
  exists hdr r1 r2 more,
    HexView.render (HexView.mkHexView (Some (repeat x41 17))
                      (HexView.mkOptions 16 true true 100) HexView.NoData (-1))
    = Some (HexView.set_html (HexView.mkHexView (Some (repeat x41 17))
                      (HexView.mkOptions 16 true true 100) HexView.NoData (-1))
              (HexView.Table hdr [r1; r2] more)) /\
    List.length (snd r1) = 16%nat /\ List.length (snd r2) = 1%nat.
Proof.
  split; [lia|]. split; [lia|].
  refine (proj2 (proj2 (render_rows_partition
            (HexView.mkHexView (Some (repeat x41 17))
               (HexView.mkOptions 16 true true 100) HexView.NoData (-1)) _ _))
            (repeat x41 17) eq_refl eq_refl eq_refl _); simpl; lia.
Defined.

(** [C4] Whenever [render] completes on a non-empty buffer of
    [totalLength] bytes, it uses
    [displayedLength = min(totalLength, bytesPerRow * maxRows)], reports
    [truncated = totalLength > displayedLength] in the header, and appends
    the truncation line, carrying [totalLength - displayedLength], exactly
    when truncated. *)
Theorem render_truncation (st st' : HexView.hexView) (d : list byte) :
  HexView.render st = Some st' -> HexView.data st = Some d -> d <> [] ->
  let o := HexView.options st in
  let totalLength := Z.of_nat (List.length d) in
  let displayedLength := Z.min totalLength (HexView.bytesPerRow o * HexView.maxRows o) in
  let truncated := totalLength >? displayedLength in
  (truncated = true <-> displayedLength < totalLength) /\
  exists rows,
    HexView.html st' =
      HexView.Table (if HexView.showHeader o then Some (totalLength, truncated) else None)
        rows
        (if truncated then Some (totalLength - displayedLength) else None).
Proof.
  intros R E Hne o totalLength displayedLength truncated.
  split; [unfold truncated; rewrite Z.gtb_lt; reflexivity|].
  unfold HexView.render in R. rewrite E in R.
  destruct (Nat.eqb_spec (List.length d) 0) as [L|L].
  { apply length_zero_iff_nil in L. contradiction. }
  destruct (HexView.render_rows _ _ _ _ _) as [rows|] eqn:Hr; [|discriminate].
  injection R as <-. exists rows. reflexivity.
Qed.

Lemma render_truncation_witness :
  HexView.render hv_trunc_before = Some hv_trunc_after /\
  HexView.data hv_trunc_before = Some (repeat x00 40) /\
  repeat x00 40 <> [] /\
  ((40 >? Z.min 40 (16 * 2)) = true <-> Z.min 40 (16 * 2) < 40) /\
  exists rows,
    HexView.html hv_trunc_after =
      HexView.Table (Some (40, 40 >? Z.min 40 (16 * 2))) rows (Some (40 - Z.min 40 (16 * 2))).
Proof.
  split; [vm_compute; reflexivity|]. split; [reflexivity|]. split; [discriminate|].
  apply (render_truncation hv_trunc_before hv_trunc_after (repeat x00 40));
    [vm_compute; reflexivity | reflexivity | discriminate].
Defined.

(** ** HexView constructor options *)









(** ** HexView data accessors *)

Lemma render_keeps_data (st st' : HexView.hexView) :
  HexView.render st = Some st' -> HexView.data st' = HexView.data st.
Proof.
  unfold HexView.render. destruct (HexView.data st) as [d|] eqn:E.
  - destruct (Nat.eqb (List.length d) 0).
    + intros H; injection H as <-. exact E.
    + destruct (HexView.render_rows _ _ _ _ _); [|discriminate].
      intros H; injection H as <-. exact E.
  - intros H; injection H as <-. exact E.
Qed.

Lemma getHexString_bytesToHex (st : HexView.hexView) (d : list byte) :
  HexView.data st = Some d -> HexView.getHexString st = bytesToHex d.
Proof.
  intros E. unfold HexView.getHexString. rewrite E. clear E.
  induction d as [|b t IH]; [reflexivity|]. simpl. rewrite IH. reflexivity.
Qed.

(** [C10] After [setData], [render] (also a truncated one) leaves the
    stored buffer unchanged: [getData] returns the buffer that was set and
    [getHexString] is [bytesToHex] of the whole buffer, not only of the
    displayed prefix. *)
Theorem render_read_only (st st1 : HexView.hexView) (a : HexView.dataArg) :
  HexView.setData st a = Some st1 ->
  HexView.getData st1 = HexView.data_of_arg a /\
  forall st2 : HexView.hexView, HexView.render st1 = Some st2 ->
    HexView.data st2 = HexView.data st1 /\
    HexView.getData st2 = HexView.data_of_arg a /\
    HexView.getHexString st2 =
      match HexView.data_of_arg a with Some b => bytesToHex b | None => EmptyString end.
Proof.
  intros H. unfold HexView.setData in H.
  assert (E1 : HexView.data st1 = HexView.data_of_arg a).
  { rewrite (render_keeps_data _ _ H). reflexivity. }
  split; [exact E1|].
  intros st2 H2. pose proof (render_keeps_data _ _ H2) as E2.
  split; [exact E2|]. split; [unfold HexView.getData; congruence|].
  destruct (HexView.data_of_arg a) as [b|] eqn:Ea.
  - apply getHexString_bytesToHex. congruence.
  - unfold HexView.getHexString. rewrite E2, E1. reflexivity.
Qed.

Lemma render_read_only_witness :
  exists st1,
    HexView.setData hv_trunc_before (HexView.DUint8Array (repeat xab 40)) = Some st1 /\
    HexView.getData st1 = Some (repeat xab 40) /\
    forall st2 : HexView.hexView, HexView.render st1 = Some st2 ->
      HexView.data st2 = HexView.data st1 /\
      HexView.getData st2 = Some (repeat xab 40) /\
      HexView.getHexString st2 = bytesToHex (repeat xab 40).
Proof.
  eexists. split; [vm_compute; reflexivity|].
  apply (render_read_only hv_trunc_before _ (HexView.DUint8Array (repeat xab 40))).
  vm_compute. reflexivity.
Defined.

Example renderRow_ex :
  HexView.renderRow (HexView.mkOptions 4 true true 100) 16 [x3c; x41; x00] =
  HexView.mkRowHtml "00000010"
    [HexView.HexByte 16 "3C"; HexView.HexByte 17 "41"; HexView.HexByte 18 "00"; HexView.HexBlank]
    (Some [HexView.AsciiChar true 16 "&lt;"; HexView.AsciiChar true 17 "A";
           HexView.AsciiChar false 18 "."]).
Proof. vm_compute. reflexivity. Qed.

(** ** HexView.byteToAscii and HexView.renderRow *)

(** [byteToAscii] maps the bytes outside 32..126 to ["."], the printable
    bytes other than [<], [>] and [&] to their own character, and never
    emits a raw [<] or [>]. *)
Theorem byteToAscii_escapes (b : byte) :
  let n := Byte.to_N b in
  ((n < 32 \/ 126 < n)%N -> HexView.byteToAscii b = "."%string) /\
  ((32 <= n <= 126)%N -> n <> 60%N -> n <> 62%N -> n <> 38%N ->
     HexView.byteToAscii b = String (ascii_of_N n) EmptyString) /\
  has_char "<" (HexView.byteToAscii b) = false /\
  has_char ">" (HexView.byteToAscii b) = false.
Proof.
  intros n. unfold n. split; [|split; [|split]].
  - intros H. unfold HexView.byteToAscii.
    destruct ((32 <=? Byte.to_N b) && (Byte.to_N b <=? 126))%N eqn:E; [|reflexivity].
    apply andb_prop in E as [E1 E2]. apply N.leb_le in E1, E2. lia.
  - intros H H1 H2 H3. unfold HexView.byteToAscii.
    replace ((32 <=? Byte.to_N b) && (Byte.to_N b <=? 126))%N with true
      by (symmetry; apply andb_true_intro; split; apply N.leb_le; lia).
    rewrite (proj2 (N.eqb_neq _ _) H1), (proj2 (N.eqb_neq _ _) H2),
      (proj2 (N.eqb_neq _ _) H3). reflexivity.
  - destruct b; reflexivity.
  - destruct b; reflexivity.
Qed.

Lemma hex_columns_indices (off : Z) (bytes : list byte) (n : nat) : forall i : nat,
  HexView.hex_indices (HexView.hex_columns off bytes i n) =
  map (fun k => off + Z.of_nat k) (seq i (Nat.min (i + n) (List.length bytes) - i)).
Proof.
  induction n as [|n IH]; intros i.
  - replace (Nat.min (i + 0) (List.length bytes) - i)%nat with 0%nat by lia. reflexivity.
  - cbn [HexView.hex_columns].
    assert (Hg : forall l, HexView.hex_indices ((if (i =? 7)%nat then [HexView.HexGap] else []) ++ l)
                           = HexView.hex_indices l)
      by (intros l; destruct (i =? 7)%nat; reflexivity).
    destruct (Nat.ltb_spec i (List.length bytes)) as [Hl|Hl].
    + cbn [HexView.hex_indices]. rewrite Hg, IH.
      replace (Nat.min (i + S n) (List.length bytes) - i)%nat
        with (S (Nat.min (S i + n) (List.length bytes) - S i)) by lia.
      reflexivity.
    + cbn [HexView.hex_indices]. rewrite Hg, IH.
      replace (Nat.min (i + S n) (List.length bytes) - i)%nat with 0%nat by lia.
      replace (Nat.min (S i + n) (List.length bytes) - S i)%nat with 0%nat by lia.
      reflexivity.
Qed.

Lemma hex_columns_count (off : Z) (bytes : list byte) (n : nat) : forall i : nat,
  HexView.column_count (HexView.hex_columns off bytes i n) = n /\
  HexView.gap_count (HexView.hex_columns off bytes i n) =
    (if (i <=? 7)%nat && (7 <? i + n)%nat then 1 else 0)%nat.
Proof.
  unfold HexView.column_count, HexView.gap_count.
  induction n as [|n IH]; intros i.
  - split; [reflexivity|]. destruct (Nat.leb_spec i 7), (Nat.ltb_spec 7 (i + 0)); simpl; auto; lia.
  - cbn [HexView.hex_columns]. destruct (IH (S i)) as [IH1 IH2].
    assert (Hc : forall c, c <> HexView.HexGap ->
              List.length (filter (fun c => match c with HexView.HexGap => false | _ => true end) [c]) = 1%nat /\
              List.length (filter (fun c => match c with HexView.HexGap => true | _ => false end) [c]) = 0%nat)
      by (intros c Hc; destruct c; simpl; auto; congruence).
    match goal with |- context [?c :: (if (i =? 7)%nat then [HexView.HexGap] else []) ++ ?rest] =>
      change (c :: (if (i =? 7)%nat then [HexView.HexGap] else []) ++ rest)
        with ([c] ++ (if (i =? 7)%nat then [HexView.HexGap] else []) ++ rest);
      destruct (Hc c) as [Hc1 Hc2];
      [destruct (Nat.ltb i (List.length bytes)); discriminate|]
    end.
    rewrite !filter_app, !List.length_app, Hc1, Hc2, IH1, IH2.
    destruct (Nat.eqb_spec i 7) as [E|E]; cbn [filter List.length].
    + subst i. split; [lia|]. destruct (Nat.leb_spec 8 7); [lia|].
      destruct (Nat.ltb_spec 7 (7 + S n)); [simpl|lia]. reflexivity.
    + split; [lia|].
      destruct (Nat.leb_spec i 7), (Nat.ltb_spec 7 (i + S n)),
        (Nat.leb_spec (S i) 7), (Nat.ltb_spec 7 (S i + n)); simpl; lia.
Qed.

Lemma ascii_columns_indices (off : Z) (bytes : list byte) : forall i : nat,
  HexView.ascii_indices (HexView.ascii_columns off bytes i) =
  map (fun k => off + Z.of_nat k) (seq i (List.length bytes)).
Proof.
  induction bytes as [|b t IH]; intros i; [reflexivity|].
  cbn [HexView.ascii_columns List.length seq map]. unfold HexView.ascii_indices in *.
  cbn [map]. rewrite IH. reflexivity.
Qed.

(** [renderRow] on a row of at most [bytesPerRow] bytes: the hex column
    has exactly [bytesPerRow] byte slots, a half-row gap exactly when
    [bytesPerRow >= 8], and the same [data-index] values
    [offset, ..., offset + length - 1] as the ASCII column, in order. *)
Theorem renderRow_columns (o : HexView.hexOptions) (offset : Z) (bytes : list byte) :
  0 <= HexView.bytesPerRow o -> Z.of_nat (List.length bytes) <= HexView.bytesPerRow o ->
  let r := HexView.renderRow o offset bytes in
  Z.of_nat (HexView.column_count (HexView.hexCells r)) = HexView.bytesPerRow o /\
  HexView.gap_count (HexView.hexCells r) = (if 8 <=? HexView.bytesPerRow o then 1%nat else 0%nat) /\
  HexView.hex_indices (HexView.hexCells r) =
    map (fun k => offset + Z.of_nat k) (seq 0 (List.length bytes)) /\
  (HexView.showAscii o = true ->
     HexView.asciiCells r =
       Some (HexView.ascii_columns offset bytes 0) /\
     HexView.ascii_indices (HexView.ascii_columns offset bytes 0) =
       HexView.hex_indices (HexView.hexCells r)).
Proof.
  intros H0 Hl r. unfold r, HexView.renderRow. cbn [HexView.hexCells HexView.asciiCells].
  destruct (hex_columns_count offset bytes (Z.to_nat (HexView.bytesPerRow o)) 0) as [C1 C2].
  rewrite hex_columns_indices, C1, C2.
  replace (Nat.min (0 + Z.to_nat (HexView.bytesPerRow o)) (List.length bytes) - 0)%nat
    with (List.length bytes) by lia.
  split; [lia|]. split.
  - destruct (Z.leb_spec 8 (HexView.bytesPerRow o)),
      (Nat.ltb_spec 7 (0 + Z.to_nat (HexView.bytesPerRow o))); simpl; lia.
  - split; [reflexivity|]. intros Ha. rewrite Ha. split; [reflexivity|].
    apply ascii_columns_indices.
Qed.

Lemma renderRow_columns_witness :
  0 <= 16 /\ Z.of_nat (List.length [x3c; x41; x00]) <= 16 /\
  let r := HexView.renderRow (HexView.mkOptions 16 true true 100) 32 [x3c; x41; x00] in
  Z.of_nat (HexView.column_count (HexView.hexCells r)) = 16 /\
  HexView.gap_count (HexView.hexCells r) = (if 8 <=? 16 then 1%nat else 0%nat) /\
  HexView.hex_indices (HexView.hexCells r) =
    map (fun k => 32 + Z.of_nat k) (seq 0 (List.length [x3c; x41; x00])) /\
  (true = true ->
     HexView.asciiCells r = Some (HexView.ascii_columns 32 [x3c; x41; x00] 0) /\
     HexView.ascii_indices (HexView.ascii_columns 32 [x3c; x41; x00] 0) =
       HexView.hex_indices (HexView.hexCells r)).
Proof.
  split; [lia|]. split; [simpl; lia|].
  apply (renderRow_columns (HexView.mkOptions 16 true true 100) 32 [x3c; x41; x00]);
    simpl; lia.
Defined.

(** ** UUID.format and UUID.parse *)

Lemma removeDashes_append (a b : string) :
  removeDashes (append a b) = append (removeDashes a) (removeDashes b).
Proof.
  induction a as [|c t IH]; [reflexivity|]. cbn [append removeDashes].
  rewrite IH. destruct (Ascii.eqb c "-"); reflexivity.
Qed.

Lemma removeDashes_nodash (s : string) : nodash s = true -> removeDashes s = s.
Proof.
  induction s as [|c t IH]; [reflexivity|]. unfold nodash. cbn [list_ascii_of_string forallb].
  intros H. apply andb_prop in H as [H1 H2]. cbn [removeDashes].
  apply negb_true_iff in H1. rewrite H1, IH by exact H2. reflexivity.
Qed.

Lemma nodash_append (a b : string) :
  nodash a = true -> nodash b = true -> nodash (append a b) = true.
Proof.
  induction a as [|c t IH]; [auto|]. unfold nodash in *. cbn [append list_ascii_of_string forallb].
  intros H Hb. apply andb_prop in H as [H1 H2]. rewrite H1, IH; auto.
Qed.

Lemma nodash_substring (s : string) : nodash s = true ->
  forall n m, nodash (substring n m s) = true.
Proof.
  induction s as [|c t IH]; intros H n m.
  - destruct n, m; reflexivity.
  - unfold nodash in H. cbn [list_ascii_of_string forallb] in H.
    apply andb_prop in H as [H1 H2]. destruct n as [|n]; cbn [substring].
    + destruct m as [|m]; [reflexivity|]. unfold nodash. cbn [list_ascii_of_string forallb].
      rewrite H1. apply IH. exact H2.
    + apply IH. exact H2.
Qed.

Lemma nodash_bytesToHex (bs : list byte) : nodash (bytesToHex bs) = true.
Proof.
  induction bs as [|b t IH]; [reflexivity|]. cbn [bytesToHex].
  apply nodash_append; [destruct b; reflexivity | exact IH].
Qed.

Lemma substring_concat (s : string) : forall n m p k q : nat,
  (n + m)%nat = p -> (m + k)%nat = q ->
  append (substring n m s) (substring p k s) = substring n q s.
Proof.
  induction s as [|c t IH]; intros n m p k q Hp Hq.
  - destruct n, m, p, k, q; reflexivity.
  - destruct n as [|n].
    + destruct m as [|m].
      * cbn [substring append]. simpl in Hp, Hq. subst. reflexivity.
      * destruct p as [|p]; [lia|]. destruct q as [|q]; [lia|].
        cbn [substring append]. rewrite (IH 0%nat m p k q) by lia. reflexivity.
    + destruct p as [|p]; [lia|]. cbn [substring]. apply IH; lia.
Qed.

Lemma substring_bytesToHex (k : nat) : forall bs : list byte,
  substring 0 (2 * k) (bytesToHex bs) = bytesToHex (firstn k bs).
Proof.
  induction k as [|k IH]; intros [|b t]; try reflexivity.
  { cbn [bytesToHex]. rewrite hex2_shape. reflexivity. }
  replace (2 * S k)%nat with (S (S (2 * k))) by lia.
  cbn [bytesToHex firstn]. rewrite hex2_shape. cbn [append substring].
  rewrite IH. reflexivity.
Qed.

(** [UUID.format] drops every byte past the sixteenth, and [UUID.parse]
    reads the result back: parsing a formatted byte array gives its first
    16 bytes, so arrays of at most 16 bytes come back unchanged. *)
Theorem UUID_parse_format (bs : list byte) :
  UUID_parse (UUID_format bs) = firstn 16 bs.
Proof.
  unfold UUID_parse, UUID_format, str_slice.
  assert (Hd : forall t, removeDashes (String "-" t) = removeDashes t) by reflexivity.
  repeat (rewrite removeDashes_append || rewrite Hd).
  rewrite !removeDashes_nodash by (apply nodash_substring, nodash_bytesToHex).
  cbn [Nat.sub].
  rewrite (substring_concat _ 16 4 20 12 16) by reflexivity.
  rewrite (substring_concat _ 12 4 16 16 20) by reflexivity.
  rewrite (substring_concat _ 8 4 12 20 24) by reflexivity.
  rewrite (substring_concat _ 0 8 8 24 32) by reflexivity.
  rewrite (substring_bytesToHex 16), hexToBytes_pairs, hexPairs_bytesToHex. reflexivity.
Qed.

Example base64_ex :
  Base64.encodeBytes [x66; x6f; x6f; x62] false = "Zm9vYg=="%string /\
  Base64.encodeBytes [xfb; xff] true = "-_8"%string /\
  Base64.decodeToBytes "-_8" true = Some [xfb; xff] /\
  Base64.decodeToBytes " Zm9v Yg" false = Some [x66; x6f; x6f; x62] /\
  Base64.decodeToBytes "Zm9vY" false = None.
Proof. vm_compute. repeat split. Qed.

(** ** Base64.encodeBytes and Base64.decodeToBytes *)

Ltac nat_mod_lia :=
  repeat match goal with H : context [Nat.modulo _ _] |- _ => revert H end;
  repeat match goal with
  | |- context [Nat.modulo ?a ?b] =>
      let H1 := fresh in let H2 := fresh in
      pose proof (Nat.div_mod_eq a b) as H1;
      pose proof (Nat.mod_upper_bound a b ltac:(lia)) as H2;
      revert H1 H2; generalize (Nat.modulo a b) (Nat.div a b); intros ? ? H1 H2
  end;
  intros; lia.

Lemma list3_ind {A : Type} (P : list A -> Prop) :
  P [] -> (forall a, P [a]) -> (forall a b, P [a; b]) ->
  (forall a b c t, P t -> P (a :: b :: c :: t)) -> forall l, P l.
Proof.
  intros H0 H1 H2 H3. fix IH 1. intros [|a [|b [|c t]]];
    [exact H0 | apply H1 | apply H2 | apply H3, IH].
Qed.

Lemma N_divq (n d q r : N) : (r < d)%N -> n = (d * q + r)%N -> (n / d)%N = q.
Proof. intros. symmetry. apply N.div_unique with r; lia. Qed.

Lemma N_modr (n d q r : N) : (r < d)%N -> n = (d * q + r)%N -> (n mod d)%N = r.
Proof. intros. symmetry. apply N.mod_unique with q; lia. Qed.

Lemma b64_group3 (a b c : N) : (a < 256)%N -> (b < 256)%N -> (c < 256)%N ->
  let buf := (a * 65536 + b * 256 + c)%N in
  let x1 := (buf / 262144)%N in let x2 := (buf / 4096 mod 64)%N in
  let x3 := (buf / 64 mod 64)%N in let x4 := (buf mod 64)%N in
  (x1 < 64 /\ x2 < 64 /\ x3 < 64 /\ x4 < 64)%N /\
  ((x1 * 262144 + x2 * 4096 + x3 * 64 + x4) / 65536 = a)%N /\
  ((x1 * 262144 + x2 * 4096 + x3 * 64 + x4) / 256 mod 256 = b)%N /\
  ((x1 * 262144 + x2 * 4096 + x3 * 64 + x4) mod 256 = c)%N.
Proof.
  intros Ha Hb Hc buf x1 x2 x3 x4.
  assert (E : (x1 * 262144 + x2 * 4096 + x3 * 64 + x4 = buf)%N).
  { unfold x1, x2, x3, x4.
    replace 262144%N with (4096 * 64)%N by reflexivity. rewrite <- N.Div0.div_div.
    replace 4096%N with (64 * 64)%N at 1 3 by reflexivity. rewrite <- N.Div0.div_div.
    generalize (N.div_mod buf 64 ltac:(lia)); generalize (N.div_mod (buf / 64) 64 ltac:(lia));
    generalize (N.div_mod (buf / 64 / 64) 64 ltac:(lia)).
    generalize (buf / 64 / 64 / 64)%N, (buf / 64 / 64 mod 64)%N, (buf / 64 / 64)%N,
      (buf / 64 mod 64)%N, (buf / 64)%N, (buf mod 64)%N.
    intros. lia. }
  rewrite E. unfold x1, x2, x3, x4, buf.
  repeat split.
  all: try (apply N.mod_lt; lia).
  - apply N.Div0.div_lt_upper_bound; lia.
  - apply N_divq with (b * 256 + c)%N; lia.
  - rewrite (N_divq _ 256 (a * 256 + b) c) by lia. apply N_modr with a; lia.
  - apply N_modr with (a * 256 + b)%N; lia.
Qed.

Lemma b64_group2 (a b : N) : (a < 256)%N -> (b < 256)%N ->
  let buf := ((a * 256 + b) * 4)%N in
  let x1 := (buf / 4096)%N in let x2 := (buf / 64 mod 64)%N in let x3 := (buf mod 64)%N in
  (x1 < 64 /\ x2 < 64 /\ x3 < 64)%N /\
  ((x1 * 4096 + x2 * 64 + x3) / 4 / 256 = a)%N /\
  ((x1 * 4096 + x2 * 64 + x3) / 4 mod 256 = b)%N.
Proof.
  intros Ha Hb buf x1 x2 x3.
  assert (E : (x1 * 4096 + x2 * 64 + x3 = buf)%N).
  { unfold x1, x2, x3.
    replace 4096%N with (64 * 64)%N by reflexivity. rewrite <- N.Div0.div_div.
    generalize (N.div_mod buf 64 ltac:(lia)); generalize (N.div_mod (buf / 64) 64 ltac:(lia)).
    generalize (buf / 64 / 64)%N, (buf / 64 mod 64)%N, (buf / 64)%N, (buf mod 64)%N.
    intros. lia. }
  rewrite E. unfold x1, x2, x3, buf.
  rewrite (N_divq _ 4 (a * 256 + b) 0) by lia.
  repeat split.
  all: try (apply N.mod_lt; lia).
  - apply N.Div0.div_lt_upper_bound; lia.
  - apply N_divq with b; lia.
  - apply N_modr with a; lia.
Qed.

Lemma b64_group1 (a : N) : (a < 256)%N ->
  let buf := (a * 16)%N in
  let x1 := (buf / 64)%N in let x2 := (buf mod 64)%N in
  (x1 < 64 /\ x2 < 64)%N /\ ((x1 * 64 + x2) / 16 = a)%N.
Proof.
  intros Ha buf x1 x2.
  assert (E : (x1 * 64 + x2 = buf)%N).
  { unfold x1, x2. generalize (N.div_mod buf 64 ltac:(lia)). lia. }
  rewrite E. unfold x1, x2, buf. repeat split.
  - apply N.Div0.div_lt_upper_bound; lia.
  - apply N.mod_lt; lia.
  - apply N_divq with 0%N; lia.
Qed.

Lemma b64_code_facts (n : N) : (n < 64)%N ->
  Base64.value (Base64.code n) = Some n /\
  Ascii.eqb (Base64.code n) "=" = false /\
  Base64.is_ascii_whitespace (Base64.code n) = false /\
  Ascii.eqb (b64_url (Base64.code n)) "=" = false /\
  b64_unurl (b64_url (Base64.code n)) = Base64.code n /\
  In (b64_url (Base64.code n)) url_alphabet.
Proof.
  intros H. rewrite <- (N2Nat.id n). assert (Hk : (N.to_nat n < 64)%nat) by lia.
  generalize (N.to_nat n) Hk. clear H Hk. intros k Hk.
  do 64 (destruct k as [|k]; [vm_compute; repeat split; auto 70|]). lia.
Qed.

Lemma encode_units_shape (l : list N) : Forall (fun x => (x < 256)%N) l ->
  exists vs p,
    Base64.encode_units l = map Base64.code vs ++ repeat "="%char p /\
    Forall (fun v => (v < 64)%N) vs /\ Base64.decode_values vs = l /\
    b64_pad_ok p (List.length vs) /\
    (List.length vs + p = 4 * ((List.length l + 2) / 3))%nat.
Proof.
  induction l as [|a|a b|a b c t IH] using list3_ind; intros Hf.
  - exists [], 0%nat. repeat split; auto. left; auto.
  - inversion Hf as [|? ? Ha _]; subst.
    destruct (b64_group1 a Ha) as [[B1 B2] D].
    eexists [_; _], 2%nat. split; [reflexivity|]. split; [repeat constructor; assumption|].
    split; [cbn; rewrite D; reflexivity|]. split; [right; right; auto|]. reflexivity.
  - inversion Hf as [|? ? Ha Hf']; subst. inversion Hf' as [|? ? Hb _]; subst.
    destruct (b64_group2 a b Ha Hb) as [[B1 [B2 B3]] [D1 D2]].
    eexists [_; _; _], 1%nat. split; [reflexivity|]. split; [repeat constructor; assumption|].
    split; [cbn; rewrite D1, D2; reflexivity|]. split; [right; left; auto|]. reflexivity.
  - inversion Hf as [|? ? Ha Hf1]; subst. inversion Hf1 as [|? ? Hb Hf2]; subst.
    inversion Hf2 as [|? ? Hc Ht]; subst.
    destruct (IH Ht) as [vs [p [E [Fv [Dv [Pk Ln]]]]]].
    destruct (b64_group3 a b c Ha Hb Hc) as [[B1 [B2 [B3 B4]]] [D1 [D2 D3]]].
    eexists (_ :: _ :: _ :: _ :: vs), p. split.
    + cbn [Base64.encode_units]. rewrite E. reflexivity.
    + split; [repeat constructor; assumption|]. split.
      * cbn [Base64.decode_values]. rewrite D1, D2, D3, Dv. reflexivity.
      * cbn [List.length]. split.
        -- unfold b64_pad_ok in *.
           replace (S (S (S (S (List.length vs)))) mod 4)%nat with (List.length vs mod 4)%nat by nat_mod_lia.
           exact Pk.
        -- replace (S (S (S (List.length t))) + 2)%nat with ((List.length t + 2) + 1 * 3)%nat by lia.
           rewrite Nat.div_add by lia. lia.
Qed.

Lemma b64_values_code (vs : list N) : Forall (fun v => (v < 64)%N) vs ->
  Base64.values (map Base64.code vs) = Some vs.
Proof.
  induction vs as [|v t IH]; intros Hf; [reflexivity|].
  inversion Hf as [|? ? Hv Ht]; subst. cbn [map Base64.values].
  rewrite (proj1 (b64_code_facts v Hv)), IH by exact Ht. reflexivity.
Qed.

Lemma filter_all {A : Type} (f : A -> bool) (l : list A) :
  Forall (fun x => f x = true) l -> filter f l = l.
Proof. induction 1; cbn; [reflexivity|]. rewrite H, IHForall. reflexivity. Qed.

Lemma filter_none {A : Type} (f : A -> bool) (l : list A) :
  Forall (fun x => f x = false) l -> filter f l = [].
Proof. induction 1; cbn; [reflexivity|]. rewrite H. exact IHForall. Qed.

Lemma strip_padding_encoded (vs : list N) (p : nat) :
  Forall (fun v => (v < 64)%N) vs -> b64_pad_ok p (List.length vs) ->
  Base64.strip_padding (map Base64.code vs ++ repeat "="%char p) = map Base64.code vs.
Proof.
  intros Hf Hp. unfold Base64.strip_padding.
  assert (Hne : forall x, In x (rev (map Base64.code vs)) -> Ascii.eqb x "=" = false).
  { intros x Hx. apply in_rev, in_map_iff in Hx as [v [<- Hv]].
    rewrite Forall_forall in Hf. apply (b64_code_facts v (Hf v Hv)). }
  rewrite List.length_app, List.repeat_length, List.length_map, rev_app_distr, rev_repeat.
  unfold b64_pad_ok in Hp.
  destruct Hp as [[-> Hk]|[[-> Hk]|[-> Hk]]].
  - rewrite Nat.add_0_r, Hk, app_nil_r. cbn [repeat app Nat.eqb].
    destruct (rev (map Base64.code vs)) as [|x [|y r]] eqn:R; [reflexivity| |].
    + rewrite (Hne x) by (left; reflexivity). reflexivity.
    + rewrite (Hne x) by (left; reflexivity). reflexivity.
  - replace ((List.length vs + 1) mod 4)%nat with 0%nat by nat_mod_lia. cbn [repeat app Nat.eqb].
    destruct (rev (map Base64.code vs)) as [|y r] eqn:R.
    + apply (f_equal (@List.length ascii)) in R. rewrite List.length_rev, List.length_map in R.
      rewrite R in Hk. discriminate.
    + rewrite (Hne y) by (left; reflexivity). cbn [Ascii.eqb Bool.eqb andb].
      rewrite <- R, rev_involutive. reflexivity.
  - replace ((List.length vs + 2) mod 4)%nat with 0%nat by nat_mod_lia. cbn [repeat app Nat.eqb].
    cbn [Ascii.eqb Bool.eqb andb]. rewrite rev_involutive. reflexivity.
Qed.

Lemma atob_encoded (vs : list N) (p : nat) :
  Forall (fun v => (v < 64)%N) vs -> b64_pad_ok p (List.length vs) ->
  Base64.atob (string_of_list_ascii (map Base64.code vs ++ repeat "="%char p)) =
  Some (string_of_list_ascii (map ascii_of_N (Base64.decode_values vs))).
Proof.
  intros Hf Hp. unfold Base64.atob. rewrite list_ascii_of_string_of_list_ascii.
  rewrite filter_all.
  2: { apply Forall_app. split.
       - apply Forall_map. eapply Forall_impl; [|exact Hf].
         intros v Hv. cbv beta. rewrite (proj1 (proj2 (proj2 (b64_code_facts v Hv)))). reflexivity.
       - apply Forall_forall. intros x Hx. apply repeat_spec in Hx. subst x. reflexivity. }
  rewrite strip_padding_encoded by assumption.
  rewrite List.length_map.
  replace (List.length vs mod 4 =? 1)%nat with false
    by (unfold b64_pad_ok in Hp; symmetry; apply Nat.eqb_neq; nat_mod_lia).
  rewrite b64_values_code by exact Hf. reflexivity.
Qed.

Lemma b64_bytes_units (bs : list byte) :
  map N_of_ascii (list_ascii_of_string (string_of_list_ascii (map ascii_of_byte bs))) =
  map Byte.to_N bs /\ Forall (fun x => (x < 256)%N) (map Byte.to_N bs).
Proof.
  rewrite list_ascii_of_string_of_list_ascii, map_map. split.
  - apply map_ext. intros b. destruct b; reflexivity.
  - apply Forall_map, Forall_forall. intros b _. destruct b; reflexivity.
Qed.

Lemma b64_bytes_back (bs : list byte) :
  map byte_of_ascii (list_ascii_of_string
    (string_of_list_ascii (map ascii_of_N (map Byte.to_N bs)))) = bs.
Proof.
  rewrite list_ascii_of_string_of_list_ascii, !map_map.
  induction bs as [|b t IH]; [reflexivity|]. cbn [map]. rewrite IH. destruct b; reflexivity.
Qed.

Lemma string_of_list_ascii_app (l1 l2 : list ascii) :
  string_of_list_ascii (l1 ++ l2) = append (string_of_list_ascii l1) (string_of_list_ascii l2).
Proof. induction l1 as [|c t IH]; cbn; [reflexivity|]. rewrite IH. reflexivity. Qed.

Lemma length_string_of_list_ascii (l : list ascii) :
  String.length (string_of_list_ascii l) = List.length l.
Proof. induction l as [|c t IH]; cbn; auto. Qed.

Lemma pad_loop_encoded (l : list ascii) (p : nat) : b64_pad_ok p (List.length l) ->
  Base64.pad_loop 3 (string_of_list_ascii l) = string_of_list_ascii (l ++ repeat "="%char p).
Proof.
  unfold b64_pad_ok. intros [[-> Hk]|[[-> Hk]|[-> Hk]]]; cbn [Base64.pad_loop repeat];
    rewrite ?app_nil_r, ?length_string_of_list_ascii, ?Hk; cbn [Nat.eqb]; [reflexivity| |];
    rewrite !length_append, length_string_of_list_ascii; cbn [String.length];
    rewrite string_of_list_ascii_app.
  - replace ((List.length l + 1) mod 4)%nat with 0%nat by nat_mod_lia. reflexivity.
  - replace ((List.length l + 1) mod 4)%nat with 3%nat by nat_mod_lia.
    replace ((List.length l + 1 + 1) mod 4)%nat with 0%nat by nat_mod_lia.
    cbn [Nat.eqb]. rewrite <- append_assoc. reflexivity.
Qed.

(** [Base64.decodeToBytes] inverts [Base64.encodeBytes] in both alphabets:
    decoding the encoding of any byte array, with the same [urlSafe] flag,
    returns the array. In particular the URL-safe decoder restores exactly
    the padding the URL-safe encoder removed. *)
Theorem base64_roundtrip (bs : list byte) (urlSafe : bool) :
  Base64.decodeToBytes (Base64.encodeBytes bs urlSafe) urlSafe = Some bs.
Proof.
  destruct (b64_bytes_units bs) as [U Fu].
  destruct (encode_units_shape _ Fu) as [vs [p [E [Fv [Dv [Pk _]]]]]].
  unfold Base64.encodeBytes, Base64.btoa, Base64.decodeToBytes. rewrite U, E.
  destruct urlSafe.
  - rewrite !list_ascii_of_string_of_list_ascii. unfold Base64.replace_char.
    rewrite !map_app, filter_app, map_map, map_map, !map_repeat.
    cbn [Ascii.eqb Bool.eqb andb].
    rewrite (filter_none _ (repeat _ _))
      by (apply Forall_forall; intros x Hx; apply repeat_spec in Hx; subst x; reflexivity).
    rewrite app_nil_r, map_map, filter_all.
    2: { apply Forall_map. eapply Forall_impl; [|exact Fv]. intros v Hv. cbv beta.
         pose proof (proj1 (proj2 (proj2 (proj2 (b64_code_facts v Hv))))) as H.
         unfold b64_url in H. rewrite H. reflexivity. }
    rewrite !map_map.
    erewrite map_ext_in.
    2: { intros v Hv. rewrite Forall_forall in Fv.
         pose proof (proj1 (proj2 (proj2 (proj2 (proj2 (b64_code_facts v (Fv v Hv))))))) as H.
         unfold b64_unurl, b64_url in H. exact H. }
    rewrite (pad_loop_encoded _ p) by (rewrite List.length_map; exact Pk).
    rewrite atob_encoded by assumption. rewrite Dv, b64_bytes_back. reflexivity.
  - rewrite atob_encoded by assumption. rewrite Dv, b64_bytes_back. reflexivity.
Qed.

(** [Base64.encodeBytes] pads the standard alphabet to [4 * ceil(n / 3)]
    characters, and its URL-safe output uses only [A-Z], [a-z], [0-9], [-]
    and [_]: no [+], [/] or [=] survive. *)
Theorem base64_encode_shape (bs : list byte) :
  String.length (Base64.encodeBytes bs false) = (4 * ((List.length bs + 2) / 3))%nat /\
  Forall (fun c => In c url_alphabet) (list_ascii_of_string (Base64.encodeBytes bs true)).
Proof.
  destruct (b64_bytes_units bs) as [U Fu].
  destruct (encode_units_shape _ Fu) as [vs [p [E [Fv [Dv [Pk Ln]]]]]].
  unfold Base64.encodeBytes, Base64.btoa. rewrite U, E. split.
  - rewrite length_string_of_list_ascii, List.length_app, List.length_map, List.repeat_length, Ln,
      List.length_map. reflexivity.
  - rewrite !list_ascii_of_string_of_list_ascii. unfold Base64.replace_char.
    rewrite !map_app, filter_app, !map_repeat. cbn [Ascii.eqb Bool.eqb andb].
    rewrite (filter_none _ (repeat _ _))
      by (apply Forall_forall; intros x Hx; apply repeat_spec in Hx; subst x; reflexivity).
    rewrite app_nil_r, !map_map, filter_all.
    + apply Forall_map. eapply Forall_impl; [|exact Fv]. intros v Hv.
      pose proof (proj2 (proj2 (proj2 (proj2 (proj2 (b64_code_facts v Hv)))))) as H.
      unfold b64_url in H. exact H.
    + apply Forall_map. eapply Forall_impl; [|exact Fv]. intros v Hv. cbv beta.
      pose proof (proj1 (proj2 (proj2 (proj2 (b64_code_facts v Hv))))) as H.
      unfold b64_url in H. rewrite H. reflexivity.
Qed.

Lemma strip_padding_keeps (d : list ascii) (z : ascii) :
  In z d -> z <> "="%char -> In z (Base64.strip_padding d).
Proof.
  intros Hz Hne. unfold Base64.strip_padding.
  destruct (List.length d mod 4 =? 0)%nat; [|exact Hz].
  apply in_rev in Hz.
  destruct (rev d) as [|x [|y r]] eqn:R; [destruct Hz|..].
  - destruct (Ascii.eqb_spec x "=") as [->|]; [|apply in_rev; rewrite R; exact Hz].
    destruct Hz as [<-|[]]. contradiction.
  - destruct (Ascii.eqb_spec x "=") as [->|]; [|apply in_rev; rewrite R; exact Hz].
    destruct Hz as [<-|Hz]; [contradiction|].
    destruct (Ascii.eqb_spec y "=") as [->|].
    + destruct Hz as [<-|Hz]; [contradiction|]. apply in_rev in Hz. exact Hz.
    + apply in_rev in Hz. exact Hz.
Qed.

Lemma values_none (d : list ascii) (c : ascii) :
  In c d -> Base64.value c = None -> Base64.values d = None.
Proof.
  induction d as [|x t IH]; intros Hc Hv; [destruct Hc|]. cbn [Base64.values].
  destruct Hc as [->|Hc].
  - rewrite Hv. reflexivity.
  - rewrite (IH Hc Hv). destruct (Base64.value x); reflexivity.
Qed.

(** [Base64.decodeToBytes] (standard alphabet) throws on any character
    that is neither whitespace, nor [=], nor in the Base64 alphabet. *)
Theorem base64_decode_bad_char (s : string) (c : ascii) :
  In c (list_ascii_of_string s) -> Base64.is_ascii_whitespace c = false ->
  c <> "="%char -> Base64.value c = None ->
  Base64.decodeToBytes s false = None.
Proof.
  intros Hin Hws Heq Hv. unfold Base64.decodeToBytes, Base64.atob.
  assert (Hd : In c (filter (fun c => negb (Base64.is_ascii_whitespace c)) (list_ascii_of_string s)))
    by (apply filter_In; rewrite Hws; auto).
  apply (strip_padding_keeps _ c) in Hd; [|exact Heq].
  rewrite (values_none _ c Hd Hv).
  destruct (_ =? 1)%nat; reflexivity.
Qed.

Lemma base64_decode_bad_char_witness :
  In "$"%char (list_ascii_of_string "Zm$v") /\ Base64.is_ascii_whitespace "$" = false /\
  "$"%char <> "="%char /\ Base64.value "$" = None /\
  Base64.decodeToBytes "Zm$v" false = None.
Proof.
  split; [simpl; auto 10|]. split; [reflexivity|]. split; [discriminate|].
  split; [reflexivity|].
  apply (base64_decode_bad_char "Zm$v" "$"); [simpl; auto 10 | reflexivity | discriminate | reflexivity].
Defined.

(** ** HexView.bindEvents: highlighting *)

Lemma count_map_seq (off k : Z) (n : nat) : forall s : nat,
  count_occ Z.eq_dec (map (fun j => off + Z.of_nat j) (seq s n)) k =
  (if (off + Z.of_nat s <=? k) && (k <? off + Z.of_nat s + Z.of_nat n) then 1%nat else 0%nat).
Proof.
  induction n as [|n IH]; intros s.
  - cbn. destruct (Z.leb_spec (off + Z.of_nat s) k), (Z.ltb_spec k (off + Z.of_nat s + 0));
      simpl; auto; lia.
  - cbn [seq map count_occ]. rewrite IH.
    destruct (Z.eq_dec (off + Z.of_nat s) k) as [E|E].
    + subst k. destruct (Z.leb_spec (off + Z.of_nat (S s)) (off + Z.of_nat s)); [lia|].
      destruct (Z.leb_spec (off + Z.of_nat s) (off + Z.of_nat s)); [|lia].
      destruct (Z.ltb_spec (off + Z.of_nat s) (off + Z.of_nat s + Z.of_nat (S n))); [|lia].
      reflexivity.
    + destruct (Z.leb_spec (off + Z.of_nat (S s)) k), (Z.ltb_spec k (off + Z.of_nat (S s) + Z.of_nat n)),
        (Z.leb_spec (off + Z.of_nat s) k), (Z.ltb_spec k (off + Z.of_nat s + Z.of_nat (S n)));
        simpl; auto; lia.
Qed.

Ltac decide_counts :=
  repeat match goal with
         | |- context [HexView.element_eq_dec ?a ?b] => destruct (HexView.element_eq_dec a b)
         | |- context [Z.eq_dec ?a ?b] => destruct (Z.eq_dec a b)
         end;
  try split; try congruence; auto.

Lemma count_hex_elements (cs : list HexView.hexCell) (k : Z) :
  count_occ HexView.element_eq_dec (HexView.hex_elements cs) (HexView.HexEl (Some k)) =
    count_occ Z.eq_dec (HexView.hex_indices cs) k /\
  count_occ HexView.element_eq_dec (HexView.hex_elements cs) (HexView.AsciiEl k) = 0%nat.
Proof.
  induction cs as [|c t [IH1 IH2]]; [auto|].
  unfold HexView.hex_elements in *. destruct c as [i h| |];
    cbn [flat_map app count_occ HexView.hex_indices]; rewrite ?IH1, ?IH2; decide_counts.
Qed.

Lemma count_ascii_elements (cs : list HexView.asciiCell) (k : Z) :
  count_occ HexView.element_eq_dec (HexView.ascii_elements cs) (HexView.AsciiEl k) =
    count_occ Z.eq_dec (HexView.ascii_indices cs) k /\
  count_occ HexView.element_eq_dec (HexView.ascii_elements cs) (HexView.HexEl (Some k)) = 0%nat.
Proof.
  induction cs as [|[p i h] t [IH1 IH2]]; [auto|].
  unfold HexView.ascii_elements, HexView.ascii_indices in *. cbn [map count_occ].
  rewrite IH1, IH2. decide_counts.
Qed.

Lemma count_row_elements (o : HexView.hexOptions) (off : Z) (b : list byte) (k : Z) :
  Z.of_nat (List.length b) <= HexView.bytesPerRow o ->
  let ind := (if (off <=? k) && (k <? off + Z.of_nat (List.length b)) then 1%nat else 0%nat) in
  count_occ HexView.element_eq_dec (HexView.row_elements o (off, b)) (HexView.HexEl (Some k)) = ind /\
  count_occ HexView.element_eq_dec (HexView.row_elements o (off, b)) (HexView.AsciiEl k) =
    (if HexView.showAscii o then ind else 0)%nat.
Proof.
  intros Hl ind. unfold HexView.row_elements, HexView.renderRow. cbn [fst snd HexView.hexCells HexView.asciiCells].
  rewrite !count_occ_app.
  destruct (count_hex_elements (HexView.hex_columns off b 0 (Z.to_nat (HexView.bytesPerRow o))) k) as [H1 H2].
  rewrite H1, H2, hex_columns_indices.
  replace (Nat.min (0 + Z.to_nat (HexView.bytesPerRow o)) (List.length b) - 0)%nat
    with (List.length b) by lia.
  rewrite count_map_seq. rewrite Z.add_0_r.
  destruct (HexView.showAscii o).
  - destruct (count_ascii_elements (HexView.ascii_columns off b 0) k) as [A1 A2].
    rewrite A1, A2, ascii_columns_indices, count_map_seq, Z.add_0_r.
    unfold ind. destruct ((off <=? k) && (k <? off + Z.of_nat (List.length b))); auto.
  - unfold ind. destruct ((off <=? k) && (k <? off + Z.of_nat (List.length b))); auto.
Qed.

Ltac zcases :=
  repeat match goal with
         | |- context [Z.leb ?a ?b] => destruct (Z.leb_spec a b)
         | |- context [Z.ltb ?a ?b] => destruct (Z.ltb_spec a b)
         | |- context [HexView.showAscii ?o] => destruct (HexView.showAscii o)
         end;
  simpl; try split; lia.

Lemma count_rows_elements (o : HexView.hexOptions) (k : Z) (rows : list (Z * list byte)) :
  forall off : Z, HexView.rows_partition (HexView.bytesPerRow o) off rows ->
  let ind := (if (off <=? k) && (k <? off + Z.of_nat (List.length (List.concat (map snd rows))))
              then 1%nat else 0%nat) in
  count_occ HexView.element_eq_dec (flat_map (HexView.row_elements o) rows) (HexView.HexEl (Some k)) = ind /\
  count_occ HexView.element_eq_dec (flat_map (HexView.row_elements o) rows) (HexView.AsciiEl k) =
    (if HexView.showAscii o then ind else 0)%nat.
Proof.
  induction rows as [|[o' b] rs IH]; intros off Hp ind.
  - unfold ind. cbn. destruct (Z.leb_spec off k), (Z.ltb_spec k (off + 0)); simpl;
      destruct (HexView.showAscii o); auto; lia.
  - destruct Hp as [-> [Hne [Hl [Hfull Hrs]]]].
    cbn [flat_map map List.concat]. rewrite !count_occ_app.
    destruct (count_row_elements o off b k Hl) as [R1 R2].
    destruct (IH (off + HexView.bytesPerRow o) Hrs) as [I1 I2].
    rewrite R1, R2, I1, I2. unfold ind. cbn [map List.concat snd]. rewrite List.length_app.
    destruct rs as [|r rs'].
    + cbn [map List.concat List.length]. rewrite Nat.add_0_r. zcases.
    + specialize (Hfull ltac:(discriminate)). rewrite Hfull. zcases.
Qed.

Lemma query_first_some (p : HexView.element -> bool) (l : list HexView.element) (e : HexView.element) :
  In e l -> p e = true ->
  exists i e', HexView.query_first p l = Some i /\ nth_error l i = Some e' /\ p e' = true.
Proof.
  induction l as [|x t IH]; intros Hin Hp; [destruct Hin|]. cbn [HexView.query_first].
  destruct (p x) eqn:Px.
  - exists 0%nat, x. auto.
  - destruct Hin as [->|Hin]; [congruence|].
    destruct (IH Hin Hp) as [i [e' [Q [N P]]]]. rewrite Q. exists (S i), e'. auto.
Qed.

Lemma query_first_none (p : HexView.element -> bool) (l : list HexView.element) :
  (forall e, In e l -> p e = false) -> HexView.query_first p l = None.
Proof.
  induction l as [|x t IH]; intros H; [reflexivity|]. cbn [HexView.query_first].
  rewrite (H x (or_introl eq_refl)), IH; [reflexivity|]. intros e He. apply H. right. exact He.
Qed.

Lemma is_hex_at_iff (k : Z) (e : HexView.element) :
  HexView.is_hex_at k e = true <-> e = HexView.HexEl (Some k).
Proof.
  destruct e as [[i|]|i]; cbn; split; intros H; try discriminate; try congruence.
  - apply Z.eqb_eq in H. subst. reflexivity.
  - injection H as ->. apply Z.eqb_refl.
Qed.

Lemma is_ascii_at_iff (k : Z) (e : HexView.element) :
  HexView.is_ascii_at k e = true <-> e = HexView.AsciiEl k.
Proof.
  destruct e as [[i|]|i]; cbn; split; intros H; try discriminate; try congruence.
  - apply Z.eqb_eq in H. subst. reflexivity.
  - injection H as ->. apply Z.eqb_refl.
Qed.

(** The first match of a selector that only one element satisfies, or
    none when no element does. *)
Lemma query_first_count (p : HexView.element -> bool) (x : HexView.element) (l : list HexView.element) :
  (forall e, p e = true <-> e = x) ->
  (count_occ HexView.element_eq_dec l x = 1%nat ->
     exists i, HexView.query_first p l = Some i /\ nth_error l i = Some x) /\
  (count_occ HexView.element_eq_dec l x = 0%nat -> HexView.query_first p l = None).
Proof.
  intros Hp. split.
  - intros C. assert (Hin : In x l) by (apply (count_occ_In HexView.element_eq_dec); lia).
    destruct (query_first_some p l x Hin (proj2 (Hp x) eq_refl)) as [i [e' [Q [N P]]]].
    apply Hp in P. subst e'. exists i. auto.
  - intros C. apply query_first_none. intros e He.
    destruct (p e) eqn:Pe; [|reflexivity]. apply Hp in Pe. subst e.
    apply (count_occ_not_In HexView.element_eq_dec) in C. contradiction.
Qed.

Lemma render_elements (st st' : HexView.hexView) (d : list byte) :
  HexView.render st = Some st' -> HexView.data st = Some d ->
  1 <= HexView.bytesPerRow (HexView.options st) -> 0 <= HexView.maxRows (HexView.options st) ->
  exists rows,
    HexView.elements st' = flat_map (HexView.row_elements (HexView.options st)) rows /\
    HexView.rows_partition (HexView.bytesPerRow (HexView.options st)) 0 rows /\
    List.length (List.concat (map snd rows)) =
      Z.to_nat (Z.min (Z.of_nat (List.length d))
        (HexView.bytesPerRow (HexView.options st) * HexView.maxRows (HexView.options st))).
Proof.
  intros R E Hb Hm. unfold HexView.render in R. rewrite E in R.
  destruct (Nat.eqb_spec (List.length d) 0) as [L|L].
  - injection R as <-. exists []. split; [reflexivity|]. split; [exact I|].
    rewrite L. cbn. rewrite Z.min_l by nia. reflexivity.
  - destruct (render_rows_displayed d (HexView.options st)) as [rows [Hr [Hp Hc]]]; [lia|lia|].
    rewrite Hr in R. injection R as <-. exists rows. split; [reflexivity|]. split; [exact Hp|].
    rewrite Hc, List.length_firstn. lia.
Qed.

(** Hovering in a rendered view (with [bytesPerRow >= 1]): for an index
    [k] in [0, displayBytes) there is exactly one [.hex-byte] span with
    [data-index = k], and exactly one [.hex-ascii-char] span when
    [showAscii] (none otherwise); [highlight(k)] highlights exactly these
    spans. For any other [k], in particular the [-1] of [mouseleave],
    nothing stays highlighted. *)
Theorem highlight_cells (st st' : HexView.hexView) (d : list byte) (k : Z) :
  HexView.render st = Some st' -> HexView.data st = Some d ->
  1 <= HexView.bytesPerRow (HexView.options st) -> 0 <= HexView.maxRows (HexView.options st) ->
  let o := HexView.options st in
  let displayBytes := Z.min (Z.of_nat (List.length d)) (HexView.bytesPerRow o * HexView.maxRows o) in
  let els := HexView.elements st' in
  let lit := fst (HexView.highlight st' k) in
  (0 <= k < displayBytes ->
     count_occ HexView.element_eq_dec els (HexView.HexEl (Some k)) = 1%nat /\
     count_occ HexView.element_eq_dec els (HexView.AsciiEl k) =
       (if HexView.showAscii o then 1 else 0)%nat /\
     exists p, nth_error els p = Some (HexView.HexEl (Some k)) /\
       (if HexView.showAscii o
        then exists q, nth_error els q = Some (HexView.AsciiEl k) /\ lit = [p; q]
        else lit = [p])) /\
  (~ (0 <= k < displayBytes) -> lit = []).
Proof.
  intros R E Hb Hm o displayBytes els lit.
  destruct (render_elements st st' d R E Hb Hm) as [rows [El [Hp Hl]]].
  destruct (count_rows_elements o k rows 0 Hp) as [C1 C2].
  change (HexView.options st) with o in El. fold els in El. rewrite <- El in C1, C2. rewrite Hl in C1, C2. fold o displayBytes in C1, C2.
  assert (Hd : 0 <= displayBytes) by (unfold displayBytes, o; nia).
  rewrite Z2Nat.id in C1, C2 by exact Hd. rewrite Z.add_0_l in C1, C2.
  destruct (query_first_count (HexView.is_hex_at k) _ els (is_hex_at_iff k)) as [Q1 Q1'].
  destruct (query_first_count (HexView.is_ascii_at k) _ els (is_ascii_at_iff k)) as [Q2 Q2'].
  unfold lit, HexView.highlight. cbn [fst]. fold els. split.
  - intros Hk.
    destruct (Z.leb_spec 0 k), (Z.ltb_spec k displayBytes); [|lia..]. cbn [andb] in C1, C2.
    split; [exact C1|]. split; [exact C2|].
    destruct (Q1 C1) as [p [Qp Np]]. exists p. split; [exact Np|].
    replace (k >=? 0) with true by (symmetry; apply Z.geb_le; lia). rewrite Qp.
    destruct (HexView.showAscii o).
    + destruct (Q2 C2) as [q [Qq Nq]]. exists q. rewrite Qq. auto.
    + rewrite (Q2' C2). reflexivity.
  - intros Hk. destruct (Z.geb_spec k 0) as [Hk0|Hk0]; [|reflexivity].
    destruct (Z.leb_spec 0 k), (Z.ltb_spec k displayBytes); [lia| | |]; cbn [andb] in C1, C2;
      rewrite (Q1' C1), (Q2' (ltac:(destruct (HexView.showAscii o); exact C2))); reflexivity.
Qed.

Lemma highlight_cells_witness :
  let st := HexView.mkHexView (Some [x41; x42; x43]) (HexView.mkOptions 2 true true 100)
              HexView.NoData (-1) in
  exists st' : HexView.hexView,
  HexView.render st = Some st' /\ HexView.data st = Some [x41; x42; x43] /\
  1 <= HexView.bytesPerRow (HexView.options st) /\ 0 <= HexView.maxRows (HexView.options st) /\
  let o := HexView.options st in
  let displayBytes := Z.min (Z.of_nat (List.length [x41; x42; x43]))
                        (HexView.bytesPerRow o * HexView.maxRows o) in
  let els := HexView.elements st' in
  let lit := fst (HexView.highlight st' 2) in
  (0 <= 2 < displayBytes ->
     count_occ HexView.element_eq_dec els (HexView.HexEl (Some 2)) = 1%nat /\
     count_occ HexView.element_eq_dec els (HexView.AsciiEl 2) =
       (if HexView.showAscii o then 1 else 0)%nat /\
     exists p, nth_error els p = Some (HexView.HexEl (Some 2)) /\
       (if HexView.showAscii o
        then exists q, nth_error els q = Some (HexView.AsciiEl 2) /\ lit = [p; q]
        else lit = [p])) /\
  (~ (0 <= 2 < displayBytes) -> lit = []).
Proof.
  intros st. eexists. split; [vm_compute; reflexivity|]. split; [reflexivity|].
  split; [simpl; lia|]. split; [simpl; lia|].
  apply (highlight_cells st _ [x41; x42; x43] 2); [vm_compute; reflexivity | reflexivity | simpl; lia | simpl; lia].
Defined.

(** ** ThemeManager *)

Lemma setTheme_inv (b0 : option (string * string)) (p : ThemeManager.page) (t : string) :
  (ThemeManager.toggle_button p = None <-> b0 = None) -> t <> EmptyString ->
  theme_inv b0 (ThemeManager.setTheme t p).
Proof.
  intros Hb Ht. exists t. unfold ThemeManager.setTheme, ThemeManager.updateToggleButton.
  destruct (ThemeManager.toggle_button p) as [x|] eqn:B; cbn.
  - destruct b0 as [y|]; [auto|]. destruct Hb as [_ H]. specialize (H eq_refl). discriminate.
  - rewrite (proj1 Hb eq_refl). auto.
Qed.

Lemma theme_inv_button (b0 : option (string * string)) (p : ThemeManager.page) :
  theme_inv b0 p -> (ThemeManager.toggle_button p = None <-> b0 = None).
Proof.
  intros [t [_ [_ [_ B]]]]. rewrite B. destruct b0; cbn; split; congruence.
Qed.

Lemma theme_inv_step (b0 : option (string * string)) (p : ThemeManager.page) (e : ThemeManager.event) :
  theme_inv b0 p -> theme_inv b0 (ThemeManager.step p e).
Proof.
  intros I. pose proof (theme_inv_button b0 p I) as Hb.
  destruct e as [|m]; cbn [ThemeManager.step].
  - destruct (ThemeManager.toggle_button p) eqn:B; [|exact I].
    unfold ThemeManager.toggle. apply setTheme_inv; [rewrite B; exact Hb|].
    destruct (ThemeManager.data_theme p) as [c|]; [destruct (String.eqb c _)|]; discriminate.
  - destruct I as [t [D [S [Ht B]]]]. rewrite S. cbn [ThemeManager.truthy_str].
    replace (String.eqb t EmptyString) with false by (symmetry; apply String.eqb_neq; exact Ht).
    exists t. auto.
Qed.

Lemma theme_inv_run (b0 : option (string * string)) (es : list ThemeManager.event) :
  forall p, theme_inv b0 p -> theme_inv b0 (ThemeManager.run p es).
Proof.
  induction es as [|e es IH]; intros p I; [exact I|].
  apply IH. apply theme_inv_step. exact I.
Qed.

(** After [ThemeManager.init()] and any sequence of toggle clicks and
    system color-scheme changes, [data-theme] and the saved
    [devtools-theme] entry hold the same non-empty theme, and the toggle
    button (if the page has one) shows the label for that theme. As
    [init] always saves a theme, the system-change listener never changes
    anything afterwards. *)
Theorem theme_consistent (prefersDark : bool) (p0 : ThemeManager.page)
  (es : list ThemeManager.event) :
  let p := ThemeManager.run (ThemeManager.init prefersDark p0) es in
  (exists t, ThemeManager.data_theme p = Some t /\ ThemeManager.stored p = Some t /\
     t <> EmptyString /\
     ThemeManager.toggle_button p =
       option_map (fun _ => ThemeManager.button_for t) (ThemeManager.toggle_button p0)) /\
  (forall m, ThemeManager.step p (ThemeManager.SystemChange m) = p).
Proof.
  intros p.
  assert (I : theme_inv (ThemeManager.toggle_button p0) p).
  { apply theme_inv_run. unfold ThemeManager.init. apply setTheme_inv; [split; auto|].
    destruct (ThemeManager.stored p0) as [s0|] eqn:S0; cbn [ThemeManager.truthy_str].
    - destruct (String.eqb_spec s0 EmptyString) as [E|E]; cbn [negb];
        [destruct prefersDark; discriminate | exact E].
    - destruct prefersDark; discriminate. }
  split; [exact I|].
  intros m. destruct I as [t [D [S [Ht B]]]]. cbn [ThemeManager.step]. rewrite S.
  cbn [ThemeManager.truthy_str].
  replace (String.eqb t EmptyString) with false by (symmetry; apply String.eqb_neq; exact Ht).
  reflexivity.
Qed.

(** With a toggle button, a click switches [dark] to [light] and anything
    else (also a custom saved value) to [dark]; two clicks restore the
    page if and only if the theme was [dark] or [light] (a custom theme
    such as [blue] ends as [light]). *)
Theorem theme_toggle (prefersDark : bool) (p0 : ThemeManager.page)
  (es : list ThemeManager.event) (t : string) :
  ThemeManager.toggle_button p0 <> None ->
  let p := ThemeManager.run (ThemeManager.init prefersDark p0) es in
  ThemeManager.data_theme p = Some t ->
  ThemeManager.data_theme (ThemeManager.step p ThemeManager.ToggleClick) =
    Some (if String.eqb t ThemeManager.DARK then ThemeManager.LIGHT else ThemeManager.DARK) /\
  ((t = ThemeManager.DARK \/ t = ThemeManager.LIGHT) <->
     ThemeManager.run p [ThemeManager.ToggleClick; ThemeManager.ToggleClick] = p).
Proof.
  intros Hb0 p Hd.
  assert (I : theme_inv (ThemeManager.toggle_button p0) p).
  { apply theme_inv_run. unfold ThemeManager.init. apply setTheme_inv; [split; auto|].
    destruct (ThemeManager.stored p0) as [s0|] eqn:S0; cbn [ThemeManager.truthy_str].
    - destruct (String.eqb_spec s0 EmptyString) as [E|E]; cbn [negb];
        [destruct prefersDark; discriminate | exact E].
    - destruct prefersDark; discriminate. }
  destruct I as [t' [D [S [Ht B]]]]. rewrite Hd in D. injection D as <-.
  destruct (ThemeManager.toggle_button p0) as [b0|]; [|contradiction]. cbn [option_map] in B.
  destruct p as [d s b]. cbn in Hd, S, B. subst d s b.
  split.
  - cbn. destruct (String.eqb t ThemeManager.DARK); reflexivity.
  - split; [intros [-> | ->]; reflexivity|].
    intros E. destruct (String.eqb_spec t ThemeManager.DARK) as [->|N]; [left; reflexivity|].
    right. apply (f_equal ThemeManager.data_theme) in E.
    cbn [ThemeManager.run fold_left ThemeManager.step ThemeManager.toggle ThemeManager.setTheme
         ThemeManager.updateToggleButton ThemeManager.toggle_button ThemeManager.data_theme] in E.
    rewrite (proj2 (String.eqb_neq _ _) N) in E. cbn in E. injection E as E. exact (eq_sym E).
Qed.

Lemma theme_toggle_witness :
  ThemeManager.toggle_button (ThemeManager.mkPage None (Some "blue"%string) (Some (""%string, ""%string))) <> None /\
  ThemeManager.data_theme (ThemeManager.run
    (ThemeManager.init false (ThemeManager.mkPage None (Some "blue"%string) (Some (""%string, ""%string)))) []) =
    Some "blue"%string /\
  let p := ThemeManager.run
    (ThemeManager.init false (ThemeManager.mkPage None (Some "blue"%string) (Some (""%string, ""%string)))) [] in
  ThemeManager.data_theme (ThemeManager.step p ThemeManager.ToggleClick) =
    Some (if String.eqb "blue" ThemeManager.DARK then ThemeManager.LIGHT else ThemeManager.DARK) /\
  (("blue"%string = ThemeManager.DARK \/ "blue"%string = ThemeManager.LIGHT) <->
     ThemeManager.run p [ThemeManager.ToggleClick; ThemeManager.ToggleClick] = p).
Proof.
  split; [discriminate|]. split; [reflexivity|].
  apply (theme_toggle false (ThemeManager.mkPage None (Some "blue"%string) (Some (""%string, ""%string))) [] "blue");
    [discriminate | reflexivity].
Defined.

(** ** Navigation *)

Lemma substring_empty (s : string) : forall n, substring n 0 s = EmptyString.
Proof. induction s as [|c t IH]; intros [|n]; cbn; auto. Qed.

Lemma substring_all (s : string) : substring 0 (String.length s) s = s.
Proof. induction s as [|c t IH]; cbn; [reflexivity|]. rewrite IH. reflexivity. Qed.

Lemma endsWith_spec (s suffix : string) :
  Navigation.endsWith s suffix = true <-> exists pre, s = append pre suffix.
Proof.
  unfold Navigation.endsWith. split.
  - intros H. apply andb_prop in H as [H1 H2]. apply Nat.leb_le in H1. apply String.eqb_eq in H2.
    exists (substring 0 (String.length s - String.length suffix) s).
    pose proof (substring_concat s 0 (String.length s - String.length suffix)
                  (String.length s - String.length suffix) (String.length suffix)
                  (String.length s) ltac:(lia) ltac:(lia)) as E.
    rewrite H2, substring_all in E. symmetry. exact E.
  - intros [pre ->]. rewrite length_append.
    replace (String.length pre + String.length suffix - String.length suffix)%nat
      with (String.length pre) by lia.
    rewrite substring_append.
    replace (String.length pre + String.length suffix - String.length suffix)%nat
      with (String.length pre) by lia.
    rewrite substring_all, String.eqb_refl, andb_true_r. apply Nat.leb_le. lia.
Qed.

(** [Navigation.init] never activates a link with a missing or empty
    [href], but a link whose [href] is only [./] or [../] prefixes that
    strip to nothing (such as ["./"]) is marked active on every page. *)
Theorem nav_empty_target (currentPath h : string) :
  h <> EmptyString -> Navigation.strip_href h = EmptyString ->
  Navigation.is_active currentPath (Some h) = true /\
  Navigation.is_active currentPath None = false /\
  Navigation.is_active currentPath (Some EmptyString) = false.
Proof.
  intros Hne Hs. split; [|split; reflexivity].
  unfold Navigation.is_active. rewrite Hs.
  replace (String.eqb h EmptyString) with false by (symmetry; apply String.eqb_neq; exact Hne).
  cbn [negb andb]. apply endsWith_spec. exists currentPath. symmetry.
  clear. induction currentPath as [|c t IH]; cbn; congruence.
Qed.

Lemma nav_empty_target_witness :
  "./"%string <> EmptyString /\ Navigation.strip_href "./" = EmptyString /\
  Navigation.is_active "/tools/base64.html" (Some "./"%string) = true /\
  Navigation.is_active "/tools/base64.html" None = false /\
  Navigation.is_active "/tools/base64.html" (Some EmptyString) = false.
Proof.
  split; [discriminate|]. split; [reflexivity|].
  apply (nav_empty_target "/tools/base64.html" "./"); [discriminate | reflexivity].
Defined.

(** For a non-empty [href] that does not start with [.], [Navigation.init]
    marks the link active exactly when the current path ends with the
    [href]. *)
Theorem nav_plain_href (currentPath h : string) :
  h <> EmptyString -> String.get 0 h <> Some "."%char ->
  Navigation.is_active currentPath (Some h) = true <-> exists pre, currentPath = append pre h.
Proof.
  intros Hne Hd. unfold Navigation.is_active.
  assert (Hs : Navigation.strip_href h = h).
  { unfold Navigation.strip_href, Navigation.drop_prefix.
    destruct h as [|c t]; [contradiction|]. cbn in Hd.
    assert (Hp : forall r, String.prefix (String "." r) (String c t) = false).
    { intros r. cbn [String.prefix]. destruct (Ascii.ascii_dec "." c) as [E|E]; [subst; contradiction|reflexivity]. }
    rewrite (Hp "./"%string), (Hp "/"%string). reflexivity. }
  rewrite Hs.
  replace (String.eqb h EmptyString) with false by (symmetry; apply String.eqb_neq; exact Hne).
  apply endsWith_spec.
Qed.

Lemma nav_plain_href_witness :
  "base64.html"%string <> EmptyString /\ String.get 0 "base64.html" <> Some "."%char /\
  (Navigation.is_active "/tools/base64.html" (Some "base64.html"%string) = true <->
   exists pre, "/tools/base64.html"%string = append pre "base64.html").
Proof.
  split; [discriminate|]. split; [discriminate|].
  apply nav_plain_href; discriminate.
Defined.

(** ** FileUpload *)

Lemma handleFile_split (u : FileUpload.upload) (f : FileUpload.file) (r : option (list byte)) :
  FileUpload.handleFile u f r =
    let '(u1, started) := FileUploadRun.handleFile_begin u f in
    if started then FileUploadRun.handleFile_resume u1 f r else u1.
Proof.
  unfold FileUpload.handleFile, FileUploadRun.handleFile_begin.
  destruct (FileUpload.size f >? FileUpload.maxSize u); [reflexivity|].
  destruct r; reflexivity.
Qed.

(** [handleFile] shows the file and its Remove button before it awaits the
    read. When [clear()] (the Remove button) runs while the read is
    pending, the read still stores its bytes when it completes:
    [getFile()] is [null] and the drop zone is shown again, yet
    [getData()] and [getBytes()] return the bytes and [onFile] is called
    with them. *)
Theorem upload_clear_during_read (u : FileUpload.upload) (f : FileUpload.file) (d : list byte) :
  FileUpload.size f <= FileUpload.maxSize u ->
  snd (FileUploadRun.handleFile_begin u f) = true /\
  FileUpload.fileInfoHidden (fst (FileUploadRun.handleFile_begin u f)) = false /\
  (let u3 := FileUploadRun.handleFile_resume
               (FileUpload.clear (fst (FileUploadRun.handleFile_begin u f))) f (Some d) in
   FileUpload.getFile u3 = None /\ FileUpload.getData u3 = Some d /\
   FileUpload.getBytes u3 = Some d /\
   FileUpload.dropZoneHidden u3 = false /\ FileUpload.fileInfoHidden u3 = true /\
   FileUpload.calls u3 =
     FileUpload.calls u ++ (if FileUpload.hasOnFile u then [FileUpload.OnFile f d] else [])).
Proof.
  intros Hs. unfold FileUploadRun.handleFile_begin.
  replace (FileUpload.size f >? FileUpload.maxSize u) with false
    by (symmetry; rewrite Z.gtb_ltb; apply Z.ltb_ge; lia).
  cbn. repeat split.
Qed.

Lemma upload_clear_during_read_witness :
  let u := FileUploadRun.create None true true in
  let f := FileUpload.mkFile "a.bin" 2 [x01; x02] in
  FileUpload.size f <= FileUpload.maxSize u /\
  (snd (FileUploadRun.handleFile_begin u f) = true /\
   FileUpload.fileInfoHidden (fst (FileUploadRun.handleFile_begin u f)) = false /\
   (let u3 := FileUploadRun.handleFile_resume
                (FileUpload.clear (fst (FileUploadRun.handleFile_begin u f))) f (Some [x01; x02]) in
    FileUpload.getFile u3 = None /\ FileUpload.getData u3 = Some [x01; x02] /\
    FileUpload.getBytes u3 = Some [x01; x02] /\
    FileUpload.dropZoneHidden u3 = false /\ FileUpload.fileInfoHidden u3 = true /\
    FileUpload.calls u3 =
      FileUpload.calls u ++ (if FileUpload.hasOnFile u then [FileUpload.OnFile f [x01; x02]] else []))).
Proof.
  intros u f. split; [cbn; lia|].
  apply upload_clear_during_read. cbn; lia.
Defined.

(** When reading a second file fails after a first one was read,
    [getFile()] returns the second file while [getData()] and
    [getBytes()] still return the first file's data, and [onFile] is
    never called for the second file. *)
Theorem upload_stale_data (u : FileUpload.upload) (a b : FileUpload.file) (da : list byte) :
  FileUpload.size a <= FileUpload.maxSize u -> FileUpload.size b <= FileUpload.maxSize u ->
  let u' := FileUpload.handleFile (FileUpload.handleFile u a (Some da)) b None in
  FileUpload.getFile u' = Some b /\ FileUpload.getData u' = Some da /\
  FileUpload.getBytes u' = Some da /\
  FileUpload.calls u' =
    FileUpload.calls u ++
      (if FileUpload.hasOnFile u then [FileUpload.OnFile a da] else []) ++
      (if FileUpload.hasOnError u then [FileUpload.OnError FileUpload.ReadFailed] else []).
Proof.
  intros Ha Hb u'. unfold u', FileUpload.handleFile.
  replace (FileUpload.size a >? FileUpload.maxSize u) with false by (symmetry; rewrite Z.gtb_ltb; apply Z.ltb_ge; lia).
  cbn [FileUpload.maxSize FileUpload.hasOnFile FileUpload.hasOnError FileUpload.calls].
  replace (FileUpload.size b >? FileUpload.maxSize u) with false by (symmetry; rewrite Z.gtb_ltb; apply Z.ltb_ge; lia).
  cbn. rewrite app_assoc. auto.
Qed.

Lemma upload_stale_data_witness :
  let u := FileUploadRun.create None true true in
  let a := FileUpload.mkFile "a.bin" 2 [x01; x02] in
  let b := FileUpload.mkFile "b.bin" 1 [x03] in
  FileUpload.size a <= FileUpload.maxSize u /\ FileUpload.size b <= FileUpload.maxSize u /\
  let u' := FileUpload.handleFile (FileUpload.handleFile u a (Some [x01; x02])) b None in
  FileUpload.getFile u' = Some b /\ FileUpload.getData u' = Some [x01; x02] /\
  FileUpload.getBytes u' = Some [x01; x02] /\
  FileUpload.calls u' =
    FileUpload.calls u ++
      (if FileUpload.hasOnFile u then [FileUpload.OnFile a [x01; x02]] else []) ++
      (if FileUpload.hasOnError u then [FileUpload.OnError FileUpload.ReadFailed] else []).
Proof.
  intros u a b. split; [cbn; lia|]. split; [cbn; lia|].
  apply upload_stale_data; cbn; lia.
Defined.

(** ** UUID.wordArrayToBytes *)

Lemma byte_of_Z_land (x : Z) : byte_of_Z (Z.land x 255) = byte_of_Z x.
Proof.
  unfold byte_of_Z. change 255 with (Z.ones 8). rewrite Z.land_ones by lia.
  change (2 ^ 8) with 256. rewrite Z.mod_mod by lia. reflexivity.
Qed.

Lemma wordArray_nth (ws : list Z) (n : nat) : forall i,
  nth i (flat_map be_bytes ws ++ repeat x00 n) x00 =
  byte_of_Z (Z.land (Z.shiftr (nth (i / 4)%nat ws 0 mod 2 ^ 32) (24 - Z.of_nat (i mod 4)%nat * 8)) 255).
Proof.
  induction ws as [|w ws IH]; intros i.
  - cbn [flat_map app]. rewrite nth_repeat.
    replace (nth (i / 4)%nat [] 0) with 0 by (destruct (i / 4)%nat; reflexivity).
    rewrite Z.mod_0_l, Z.shiftr_0_l by lia. reflexivity.
  - cbn [flat_map]. rewrite <- app_assoc. rewrite byte_of_Z_land.
    destruct (Nat.lt_ge_cases i 4) as [Hi|Hi].
    + do 3 (destruct i as [|i];
            [rewrite Z.shiftr_div_pow2 by (cbn; lia); reflexivity|]).
      destruct i as [|i]; [|lia].
      change (24 - Z.of_nat (3 mod 4)%nat * 8) with 0. rewrite Z.shiftr_0_r. reflexivity.
    + do 4 (destruct i as [|i]; [lia|]).
      change (nth (S (S (S (S i)))) (be_bytes w ++ flat_map be_bytes ws ++ repeat x00 n) x00)
        with (nth i (flat_map be_bytes ws ++ repeat x00 n) x00).
      rewrite IH, byte_of_Z_land.
      replace (S (S (S (S i)))) with (i + 1 * 4)%nat by lia.
      rewrite Nat.div_add, Nat.Div0.mod_add by lia. rewrite Nat.add_1_r. reflexivity.
Qed.

(** [UUID.wordArrayToBytes] unpacks the words big-endian: the result is
    the first [sigBytes] bytes of the 4-byte big-endian encodings of the
    words (a negative word read as its 32-bit two's complement), followed
    by zero bytes where [sigBytes] goes past the words. *)
Theorem wordArrayToBytes_be (ws : list Z) (n : nat) :
  wordArrayToBytes (mkWordArray ws n) = firstn n (flat_map be_bytes ws ++ repeat x00 n).
Proof.
  unfold wordArrayToBytes. cbn [words sigBytes].
  apply nth_ext with (d := x00) (d' := x00).
  - rewrite length_map, length_seq, length_firstn, length_app, repeat_length. lia.
  - intros i Hi. rewrite length_map, length_seq in Hi.
    rewrite nth_firstn. replace (i <? n)%nat with true by (symmetry; apply Nat.ltb_lt; exact Hi).
    rewrite wordArray_nth.
    match goal with |- nth _ (map ?f _) _ = _ =>
      rewrite (nth_indep _ x00 (f 0%nat)) by (rewrite length_map, length_seq; exact Hi);
      rewrite (map_nth f), seq_nth by exact Hi end.
    reflexivity.
Qed.

(** ** Navigation: relative prefixes *)

Lemma prefix_append (pre h : string) : String.prefix pre (append pre h) = true.
Proof.
  induction pre as [|c t IH]; [destruct h; reflexivity|].
  cbn [append String.prefix]. destruct (Ascii.ascii_dec c c) as [_|E]; [exact IH|].
  contradiction.
Qed.

Lemma drop_prefix_append (pre h : string) : Navigation.drop_prefix pre (append pre h) = h.
Proof.
  unfold Navigation.drop_prefix. rewrite prefix_append, length_append.
  replace (String.length pre + String.length h - String.length pre)%nat
    with (String.length h) by lia.
  rewrite substring_append. apply substring_all.
Qed.

Lemma drop_prefix_nodot (pre h : string) :
  String.get 0 pre = Some "."%char -> String.get 0 h <> Some "."%char ->
  Navigation.drop_prefix pre h = h.
Proof.
  intros Hp Hh. unfold Navigation.drop_prefix.
  destruct pre as [|c t]; [discriminate|]. cbn in Hp. injection Hp as ->.
  destruct h as [|c' t']; [reflexivity|]. cbn in Hh.
  cbn [String.prefix]. destruct (Ascii.ascii_dec "." c') as [E|E];
    [subst; contradiction|reflexivity].
Qed.

(** [Navigation.init] strips one leading [../] and then one leading
    [./] from an [href]: for a non-empty [h] that does not start with
    [.], the links [./h], [../h] and [.././h] are active on exactly the
    pages where [h] is, while [../../h] keeps one [../] and is active only
    on a path that ends with [../h]. *)
Theorem nav_relative_prefixes (currentPath h : string) :
  h <> EmptyString -> String.get 0 h <> Some "."%char ->
  Navigation.is_active currentPath (Some (append "./" h)) =
    Navigation.is_active currentPath (Some h) /\
  Navigation.is_active currentPath (Some (append "../" h)) =
    Navigation.is_active currentPath (Some h) /\
  Navigation.is_active currentPath (Some (append ".././" h)) =
    Navigation.is_active currentPath (Some h) /\
  Navigation.is_active currentPath (Some (append "../../" h)) =
    Navigation.endsWith currentPath (append "../" h).
Proof.
  intros Hne Hd.
  assert (N1 : forall x, Navigation.drop_prefix "../" (append "./" x) = append "./" x)
    by (intros; reflexivity).
  assert (N2 : forall x, Navigation.drop_prefix "./" (append "../" x) = append "../" x)
    by (intros; reflexivity).
  assert (S0 : Navigation.strip_href h = h).
  { unfold Navigation.strip_href.
    rewrite (drop_prefix_nodot "../" h), (drop_prefix_nodot "./" h) by (reflexivity || exact Hd).
    reflexivity. }
  assert (S1 : Navigation.strip_href (append "./" h) = h).
  { unfold Navigation.strip_href. rewrite N1. apply drop_prefix_append. }
  assert (S2 : Navigation.strip_href (append "../" h) = h).
  { unfold Navigation.strip_href. rewrite drop_prefix_append. apply drop_prefix_nodot; [reflexivity | exact Hd]. }
  assert (S3 : Navigation.strip_href (append ".././" h) = h).
  { change (append ".././" h) with (append "../" (append "./" h)).
    unfold Navigation.strip_href. rewrite !drop_prefix_append. reflexivity. }
  assert (S4 : Navigation.strip_href (append "../../" h) = append "../" h).
  { change (append "../../" h) with (append "../" (append "../" h)).
    unfold Navigation.strip_href. rewrite drop_prefix_append. apply N2. }
  unfold Navigation.is_active. rewrite S0, S1, S2, S3, S4.
  replace (String.eqb h EmptyString) with false
    by (symmetry; apply String.eqb_neq; exact Hne).
  cbn [append String.eqb negb andb]. repeat split.
Qed.

Lemma nav_relative_prefixes_witness :
  "base64.html"%string <> EmptyString /\ String.get 0 "base64.html" <> Some "."%char /\
  (Navigation.is_active "/tools/base64.html" (Some (append "./" "base64.html")) =
     Navigation.is_active "/tools/base64.html" (Some "base64.html"%string) /\
   Navigation.is_active "/tools/base64.html" (Some (append "../" "base64.html")) =
     Navigation.is_active "/tools/base64.html" (Some "base64.html"%string) /\
   Navigation.is_active "/tools/base64.html" (Some (append ".././" "base64.html")) =
     Navigation.is_active "/tools/base64.html" (Some "base64.html"%string) /\
   Navigation.is_active "/tools/base64.html" (Some (append "../../" "base64.html")) =
     Navigation.endsWith "/tools/base64.html" (append "../" "base64.html")).
Proof.
  split; [discriminate|]. split; [discriminate|].
  apply nav_relative_prefixes; discriminate.
Defined.
